(** * The storefront's client state: cart store, session manager, view router

    A shallow embedding of [frontend/src/App.js]: the cart context
    ([CartProvider]), the authentication context ([AuthProvider]) and the
    top-level view switch ([App.renderView]), together with the two
    platform services they call, [localStorage] and [JSON].

    Conventions.
    - A React state cell is a field of [State]; a setter writes the field.
      Every handler runs against the state of the latest render, so a
      handler is a function [State -> State]; an effect that can throw
      returns an [Outcome].
    - [localStorage] is a finite map from keys to strings.
    - A quantity is an integer-valued JavaScript number, embedded as [Z]
      (exact; JavaScript is exact up to 2^53).
    - A price is carried as the decimal numeral that JSON text uses for it
      ([decimal]); arithmetic on it goes through its IEEE 754 binary64
      value ([number_of_decimal]), as JavaScript computes.  Numerals are
      written in positional notation throughout.
    - A JavaScript string is a [string]: a sequence of code units below 256.
    - [JSON.stringify] and [JSON.parse] are a writer and a reader of JSON
      text over these values; [axios.get] is the way its promise settles. *)

From Stdlib Require Import ZArith Ascii String List SpecFloat.
From stdpp Require Import gmap strings list.

Local Open Scope Z_scope.

(* ================================================================= *)
(** * Part I: definitions *)
(* ================================================================= *)

(** ** Numbers *)

(** [units / 10 ^ scale], the value of a decimal numeral with [scale] digits
    after the point. *)
Record decimal := Dec { units : Z; scale : nat }.

(** A JavaScript number: IEEE 754 binary64, with the arithmetic of the
    standard, rounding to nearest, ties to even. *)
Definition prec : Z := 53.
Definition emax : Z := 1024.

Definition number : Type := spec_float.

Definition number_zero : number := S754_zero false.
Definition number_add (x y : number) : number := SFadd prec emax x y.
Definition number_mul (x y : number) : number := SFmul prec emax x y.

(** The number JavaScript holds for an integer: the nearest binary64. *)
Definition number_of_Z (z : Z) : number := binary_normalize prec emax z 0 false.

(** The number JavaScript holds for a decimal: the nearest binary64, by one
    correctly rounded division of the two integers. *)
Definition number_of_decimal (d : decimal) : number :=
  match units d with
  | 0 => number_zero
  | Z.pos m =>
      let '(q, e, l) := SFdiv_core_binary prec emax (Z.pos m) 0 (10 ^ Z.of_nat (scale d)) 0 in
      binary_round_aux prec emax false q e l
  | Z.neg m =>
      let '(q, e, l) := SFdiv_core_binary prec emax (Z.pos m) 0 (10 ^ Z.of_nat (scale d)) 0 in
      binary_round_aux prec emax true q e l
  end.

(** ** JSON values *)

Unset Elimination Schemes.
Inductive json :=
| JNull
| JBool (b : bool)
| JNumber (n : decimal)
| JString (s : string)
| JArray (elements : list json)
| JObject (members : list (string * json)).
Set Elimination Schemes.

(** ** Characters *)

Definition code (c : ascii) : Z := Z.of_N (N_of_ascii c).
Definition char (n : Z) : ascii := ascii_of_N (Z.to_N n).

Definition quote_char : ascii := char 34.
Definition backslash_char : ascii := char 92.

Definition is_char (a c : ascii) : bool := Ascii.eqb a c.

(** ** Writing JSON text: [JSON.stringify] *)

Definition digit_char (d : Z) : ascii := char (48 + d).

(** The digits of [n], most significant first; [fuel] bounds their number. *)
Fixpoint digits_fuel (fuel : nat) (n : Z) : list ascii :=
  match fuel with
  | O => []
  | S fuel' =>
      if n <? 10 then [digit_char n]
      else digits_fuel fuel' (n / 10) ++ [digit_char (n mod 10)]
  end.

Definition int_digits (n : Z) : list ascii :=
  digits_fuel (S (Z.to_nat (Z.log2 n))) n.

(** Exactly [w] digits: [n mod 10 ^ w], zero-padded on the left. *)
Fixpoint fixed_digits (w : nat) (n : Z) : list ascii :=
  match w with
  | O => []
  | S w' => fixed_digits w' (n / 10) ++ [digit_char (n mod 10)]
  end.

Definition Number_toString (d : decimal) : list ascii :=
  let a := Z.abs (units d) in
  let p := 10 ^ Z.of_nat (scale d) in
  (if units d <? 0 then ["-"%char] else []) ++
  int_digits (a / p) ++
  match scale d with
  | O => []
  | S _ => "."%char :: fixed_digits (scale d) (a mod p)
  end.

Definition hex_char (n : Z) : ascii :=
  if n <? 10 then char (48 + n) else char (87 + n).

(** [QuoteJSONString], one code unit at a time. *)
Definition escape_char (c : ascii) : list ascii :=
  let n := code c in
  if n =? 34 then [backslash_char; quote_char]
  else if n =? 92 then [backslash_char; backslash_char]
  else if n =? 8 then [backslash_char; "b"%char]
  else if n =? 12 then [backslash_char; "f"%char]
  else if n =? 10 then [backslash_char; "n"%char]
  else if n =? 13 then [backslash_char; "r"%char]
  else if n =? 9 then [backslash_char; "t"%char]
  else if n <? 32 then
    [backslash_char; "u"%char; "0"%char; "0"%char; hex_char (n / 16); hex_char (n mod 16)]
  else [c].

Definition quote_string (s : string) : list ascii :=
  quote_char :: flat_map escape_char (list_ascii_of_string s) ++ [quote_char].

(** Items separated by commas. *)
Fixpoint join_commas (items : list (list ascii)) : list ascii :=
  match items with
  | [] => []
  | [x] => x
  | x :: rest => x ++ ","%char :: join_commas rest
  end.

Fixpoint write_json (j : json) : list ascii :=
  match j with
  | JNull => list_ascii_of_string "null"
  | JBool true => list_ascii_of_string "true"
  | JBool false => list_ascii_of_string "false"
  | JNumber n => Number_toString n
  | JString s => quote_string s
  | JArray elements =>
      "["%char :: join_commas (map write_json elements) ++ ["]"%char]
  | JObject members =>
      "{"%char ::
      join_commas (map (fun kv => quote_string (fst kv) ++ ":"%char :: write_json (snd kv)) members)
      ++ ["}"%char]
  end.

Definition JSON_stringify (j : json) : string :=
  string_of_list_ascii (write_json j).

(** ** Reading JSON text: [JSON.parse] *)

Definition is_ws (c : ascii) : bool :=
  let n := code c in (n =? 32) || (n =? 9) || (n =? 10) || (n =? 13).

Fixpoint skip_ws (s : list ascii) : list ascii :=
  match s with
  | c :: r => if is_ws c then skip_ws r else s
  | [] => []
  end.

Definition digit_value (c : ascii) : option Z :=
  let n := code c in
  if (48 <=? n) && (n <=? 57) then Some (n - 48) else None.

(** Reads the longest run of digits: its value on top of [acc], how many
    digits were read on top of [n], and the text left. *)
Fixpoint scan_digits (acc : Z) (n : nat) (s : list ascii) : Z * nat * list ascii :=
  match s with
  | c :: r =>
      match digit_value c with
      | Some d => scan_digits (acc * 10 + d) (S n) r
      | None => (acc, n, s)
      end
  | [] => (acc, n, [])
  end.

(** int = "0" | digit1-9 *digit *)
Definition parse_int (s : list ascii) : option (Z * list ascii) :=
  match s with
  | c :: r =>
      match digit_value c with
      | Some 0 => Some (0, r)
      | Some _ => let '(v, _, r') := scan_digits 0 0 s in Some (v, r')
      | None => None
      end
  | [] => None
  end.

(** frac = "." 1*digit, optional: the digits' value and their number. *)
Definition parse_frac (s : list ascii) : option (Z * nat * list ascii) :=
  match s with
  | c :: r =>
      if is_char "." c then
        match scan_digits 0 0 r with
        | (_, O, _) => None
        | res => Some res
        end
      else Some (0, O, s)
  | [] => Some (0, O, [])
  end.

(** exp = ("e" | "E") ["-" | "+"] 1*digit, optional. *)
Definition parse_exp (s : list ascii) : option (Z * list ascii) :=
  match s with
  | c :: r =>
      if is_char "e" c || is_char "E" c then
        let '(neg, r1) :=
          match r with
          | c1 :: r' =>
              if is_char "-" c1 then (true, r')
              else if is_char "+" c1 then (false, r')
              else (false, r)
          | [] => (false, r)
          end in
        match scan_digits 0 0 r1 with
        | (_, O, _) => None
        | (v, _, r2) => Some (if neg then - v else v, r2)
        end
      else Some (0, s)
  | [] => Some (0, [])
  end.

(** The decimal [(-1)^neg * m * 10 ^ (e - fl)]. *)
Definition make_decimal (neg : bool) (m : Z) (fl : nat) (e : Z) : decimal :=
  let u := if neg then - m else m in
  let e' := e - Z.of_nat fl in
  if 0 <=? e' then Dec (u * 10 ^ e') 0 else Dec u (Z.to_nat (- e')).

(** An optional minus sign. *)
Definition parse_sign (s : list ascii) : bool * list ascii :=
  match s with
  | c :: r => if is_char "-" c then (true, r) else (false, s)
  | [] => (false, s)
  end.

Definition parse_number (s : list ascii) : option (decimal * list ascii) :=
  let '(neg, s1) := parse_sign s in
  match parse_int s1 with
  | None => None
  | Some (ip, s2) =>
      match parse_frac s2 with
      | None => None
      | Some (fp, fl, s3) =>
          match parse_exp s3 with
          | None => None
          | Some (e, s4) =>
              Some (make_decimal neg (ip * 10 ^ Z.of_nat fl + fp) fl e, s4)
          end
      end
  end.

Definition hex_value (c : ascii) : option Z :=
  let n := code c in
  if (48 <=? n) && (n <=? 57) then Some (n - 48)
  else if (97 <=? n) && (n <=? 102) then Some (n - 87)
  else if (65 <=? n) && (n <=? 70) then Some (n - 55)
  else None.

Definition hex4 (h1 h2 h3 h4 : ascii) : option Z :=
  match hex_value h1, hex_value h2, hex_value h3, hex_value h4 with
  | Some a, Some b, Some c, Some d => Some (((a * 16 + b) * 16 + c) * 16 + d)
  | _, _, _, _ => None
  end.

(** The character a one-letter escape stands for. *)
Definition unescape (e : ascii) : option ascii :=
  let n := code e in
  if n =? 34 then Some quote_char
  else if n =? 92 then Some backslash_char
  else if n =? 47 then Some "/"%char
  else if n =? 98 then Some (char 8)
  else if n =? 102 then Some (char 12)
  else if n =? 110 then Some (char 10)
  else if n =? 114 then Some (char 13)
  else if n =? 116 then Some (char 9)
  else None.

Definition cons_char (c : ascii) (r : option (list ascii * list ascii)) :
  option (list ascii * list ascii) :=
  match r with
  | Some (cs, rest) => Some (c :: cs, rest)
  | None => None
  end.

(** The characters of a string literal, read from just after its opening
    quote up to its closing quote.  A [\u] escape of a code unit above 255
    has no counterpart in [string] and is refused. *)
Fixpoint parse_string_body (s : list ascii) : option (list ascii * list ascii) :=
  match s with
  | [] => None
  | c :: r =>
      if code c =? 34 then Some ([], r)
      else if code c =? 92 then
        match r with
        | [] => None
        | e :: r1 =>
            if is_char "u" e then
              match r1 with
              | h1 :: h2 :: h3 :: h4 :: r2 =>
                  match hex4 h1 h2 h3 h4 with
                  | Some n =>
                      if n <? 256 then cons_char (char n) (parse_string_body r2)
                      else None
                  | None => None
                  end
              | _ => None
              end
            else
              match unescape e with
              | Some ch => cons_char ch (parse_string_body r1)
              | None => None
              end
        end
      else if code c <? 32 then None
      else cons_char c (parse_string_body r)
  end.

Definition parse_string (s : list ascii) : option (string * list ascii) :=
  match parse_string_body s with
  | Some (cs, rest) => Some (string_of_list_ascii cs, rest)
  | None => None
  end.

(** [Some rest] when [s] is [p] followed by [rest]. *)
Fixpoint strip_prefix (p s : list ascii) : option (list ascii) :=
  match p, s with
  | [], _ => Some s
  | a :: p', c :: s' => if is_char a c then strip_prefix p' s' else None
  | _ :: _, [] => None
  end.

Definition parse_literal (s : list ascii) : option (json * list ascii) :=
  match strip_prefix (list_ascii_of_string "null") s with
  | Some r => Some (JNull, r)
  | None =>
  match strip_prefix (list_ascii_of_string "true") s with
  | Some r => Some (JBool true, r)
  | None =>
  match strip_prefix (list_ascii_of_string "false") s with
  | Some r => Some (JBool false, r)
  | None =>
  match parse_number s with
  | Some (n, r) => Some (JNumber n, r)
  | None => None
  end end end end.

(** Recursive descent over the JSON grammar; [fuel] bounds the nesting and
    the number of elements still to read. *)
Fixpoint parse_value (fuel : nat) (s : list ascii) : option (json * list ascii) :=
  match fuel with
  | O => None
  | S n =>
      match skip_ws s with
      | [] => None
      | c :: r =>
          if is_char "[" c then
            match skip_ws r with
            | c1 :: r1 =>
                if is_char "]" c1 then Some (JArray [], r1)
                else
                  match parse_elements n r with
                  | Some (vs, r') => Some (JArray vs, r')
                  | None => None
                  end
            | [] => None
            end
          else if is_char "{" c then
            match skip_ws r with
            | c1 :: r1 =>
                if is_char "}" c1 then Some (JObject [], r1)
                else
                  match parse_members n r with
                  | Some (ms, r') => Some (JObject ms, r')
                  | None => None
                  end
            | [] => None
            end
          else if code c =? 34 then
            match parse_string r with
            | Some (str, r') => Some (JString str, r')
            | None => None
            end
          else parse_literal (c :: r)
      end
  end
with parse_elements (fuel : nat) (s : list ascii) : option (list json * list ascii) :=
  match fuel with
  | O => None
  | S n =>
      match parse_value n s with
      | Some (v, r) =>
          match skip_ws r with
          | c :: r1 =>
              if is_char "," c then
                match parse_elements n r1 with
                | Some (vs, r2) => Some (v :: vs, r2)
                | None => None
                end
              else if is_char "]" c then Some ([v], r1)
              else None
          | [] => None
          end
      | None => None
      end
  end
with parse_members (fuel : nat) (s : list ascii) : option (list (string * json) * list ascii) :=
  match fuel with
  | O => None
  | S n =>
      match skip_ws s with
      | q :: r0 =>
          if code q =? 34 then
            match parse_string r0 with
            | Some (k, r) =>
                match skip_ws r with
                | c :: r1 =>
                    if is_char ":" c then
                      match parse_value n r1 with
                      | Some (v, r2) =>
                          match skip_ws r2 with
                          | c2 :: r3 =>
                              if is_char "," c2 then
                                match parse_members n r3 with
                                | Some (ms, r4) => Some ((k, v) :: ms, r4)
                                | None => None
                                end
                              else if is_char "}" c2 then Some ([(k, v)], r3)
                              else None
                          | [] => None
                          end
                      | None => None
                      end
                    else None
                | [] => None
                end
            | None => None
            end
          else None
      | [] => None
      end
  end.

(** [JSON.parse]: [None] is the [SyntaxError] it throws. *)
Definition JSON_parse (text : string) : option json :=
  let s := list_ascii_of_string text in
  match parse_value (S (List.length s)) s with
  | Some (j, rest) =>
      match skip_ws rest with
      | [] => Some j
      | _ :: _ => None
      end
  | None => None
  end.


(** ** Data model *)

Module Product.

(** A product as the backend supplies it; the cart keeps it as a snapshot. *)
Record t := Make {
  id : string;
  name : string;
  description : string;
  price : decimal;
  category : string;
  inventory : Z;
  images : list string
}.

End Product.

Record CartLineItem := LineItem { product : Product.t; quantity : Z }.

(** ** A serialized cart: from line items to JSON values and back *)

Definition json_of_Z (z : Z) : json := JNumber (Dec z 0).

Definition json_of_product (p : Product.t) : json :=
  JObject
    [("id"%string, JString (Product.id p));
     ("name"%string, JString (Product.name p));
     ("description"%string, JString (Product.description p));
     ("price"%string, JNumber (Product.price p));
     ("category"%string, JString (Product.category p));
     ("inventory"%string, json_of_Z (Product.inventory p));
     ("images"%string, JArray (map JString (Product.images p)))].

Definition json_of_item (item : CartLineItem) : json :=
  JObject
    [("product"%string, json_of_product (product item));
     ("quantity"%string, json_of_Z (quantity item))].

Definition json_of_cart (cart : list CartLineItem) : json :=
  JArray (map json_of_item cart).

(** Property access on a parsed object: of two members with one key, the
    later one is the object's. *)
Definition get_member (key : string) (members : list (string * json)) : option json :=
  fold_left (fun found kv => if String.eqb (fst kv) key then Some (snd kv) else found)
            members None.

Definition get_property (key : string) (j : json) : option json :=
  match j with
  | JObject members => get_member key members
  | _ => None
  end.

Definition string_of_json (j : json) : option string :=
  match j with JString s => Some s | _ => None end.

Definition decimal_of_json (j : json) : option decimal :=
  match j with JNumber n => Some n | _ => None end.

(** An integer-valued number. *)
Definition Z_of_json (j : json) : option Z :=
  match j with
  | JNumber n =>
      let p := 10 ^ Z.of_nat (scale n) in
      if units n mod p =? 0 then Some (units n / p) else None
  | _ => None
  end.

Fixpoint strings_of_jsons (js : list json) : option (list string) :=
  match js with
  | [] => Some []
  | j :: rest =>
      s ← string_of_json j;
      ss ← strings_of_jsons rest;
      Some (s :: ss)
  end.

Definition strings_of_json (j : json) : option (list string) :=
  match j with JArray js => strings_of_jsons js | _ => None end.

Definition product_of_json (j : json) : option Product.t :=
  id ← get_property "id" j ≫= string_of_json;
  name ← get_property "name" j ≫= string_of_json;
  description ← get_property "description" j ≫= string_of_json;
  price ← get_property "price" j ≫= decimal_of_json;
  category ← get_property "category" j ≫= string_of_json;
  inventory ← get_property "inventory" j ≫= Z_of_json;
  images ← get_property "images" j ≫= strings_of_json;
  Some (Product.Make id name description price category inventory images).

Definition item_of_json (j : json) : option CartLineItem :=
  p ← get_property "product" j ≫= product_of_json;
  q ← get_property "quantity" j ≫= Z_of_json;
  Some (LineItem p q).

Fixpoint items_of_jsons (js : list json) : option (list CartLineItem) :=
  match js with
  | [] => Some []
  | j :: rest =>
      item ← item_of_json j;
      items ← items_of_jsons rest;
      Some (item :: items)
  end.

(** The line items a parsed value holds, when it has the shape of a
    serialized cart. *)
Definition cart_of_json (j : json) : option (list CartLineItem) :=
  match j with JArray js => items_of_jsons js | _ => None end.

(** ** Application state *)

Record State := MkState {
  user : json;                        (* AuthProvider: useState(null) *)
  loading : bool;                     (* AuthProvider: useState(true) *)
  cart : list CartLineItem;           (* CartProvider: useState([]) *)
  cartCount : Z;                      (* CartProvider: useState(0) *)
  currentView : string;               (* App: useState('home') *)
  localStorage : gmap string string
}.

Definition setUser (u : json) (st : State) : State :=
  MkState u (loading st) (cart st) (cartCount st) (currentView st) (localStorage st).
Definition setLoading (b : bool) (st : State) : State :=
  MkState (user st) b (cart st) (cartCount st) (currentView st) (localStorage st).
Definition setCart (c : list CartLineItem) (st : State) : State :=
  MkState (user st) (loading st) c (cartCount st) (currentView st) (localStorage st).
Definition setCartCount (n : Z) (st : State) : State :=
  MkState (user st) (loading st) (cart st) n (currentView st) (localStorage st).
Definition setCurrentView (v : string) (st : State) : State :=
  MkState (user st) (loading st) (cart st) (cartCount st) v (localStorage st).

Definition localStorage_getItem (key : string) (st : State) : option string :=
  localStorage st !! key.
Definition localStorage_setItem (key value : string) (st : State) : State :=
  MkState (user st) (loading st) (cart st) (cartCount st) (currentView st)
          (<[key := value]> (localStorage st)).
Definition localStorage_removeItem (key : string) (st : State) : State :=
  MkState (user st) (loading st) (cart st) (cartCount st) (currentView st)
          (delete key (localStorage st)).

(** The state of the first render over a given [localStorage]. *)
Definition initial_state (storage : gmap string string) : State :=
  MkState JNull true [] 0 "home" storage.

(** A string in a condition: only the empty string is falsy. *)
Definition truthy_string (s : string) : bool :=
  match s with EmptyString => false | String _ _ => true end.

(** ** Cart store ([CartProvider]) *)

(** [c.reduce((sum, item) => sum + item.quantity, 0)] *)
Definition sum_quantity (c : list CartLineItem) : Z :=
  fold_left (fun sum item => sum + quantity item) c 0.

(** The three statements every mutation ends with. *)
Definition commit_cart (newCart : list CartLineItem) (st : State) : State :=
  localStorage_setItem "cart" (JSON_stringify (json_of_cart newCart))
    (setCartCount (sum_quantity newCart) (setCart newCart st)).

(** [addToCart(product, quantity = 1)]: [None] is a call without the
    second argument. *)
Definition addToCart (p : Product.t) (qty : option Z) (st : State) : State :=
  let qty := default 1 qty in
  let existingItem :=
    find (fun item => String.eqb (Product.id (product item)) (Product.id p)) (cart st) in
  let newCart :=
    match existingItem with
    | Some _ =>
        map (fun item =>
               if String.eqb (Product.id (product item)) (Product.id p)
               then LineItem (product item) (quantity item + qty)
               else item)
            (cart st)
    | None => cart st ++ [LineItem p qty]
    end in
  commit_cart newCart st.

Definition removeFromCart (productId : string) (st : State) : State :=
  let newCart :=
    List.filter (fun item => negb (String.eqb (Product.id (product item)) productId)) (cart st) in
  commit_cart newCart st.

Definition updateQuantity (productId : string) (qty : Z) (st : State) : State :=
  if qty <=? 0 then removeFromCart productId st
  else
    let newCart :=
      map (fun item =>
             if String.eqb (Product.id (product item)) productId
             then LineItem (product item) qty
             else item)
          (cart st) in
    commit_cart newCart st.

Definition clearCart (st : State) : State :=
  localStorage_removeItem "cart" (setCartCount 0 (setCart [] st)).

(** [cart.reduce((sum, item) => sum + item.product.price * item.quantity, 0)] *)
Definition total_of (c : list CartLineItem) : number :=
  fold_left
    (fun sum item =>
       number_add sum
         (number_mul (number_of_decimal (Product.price (product item)))
                     (number_of_Z (quantity item))))
    c number_zero.

Definition getTotal (st : State) : number := total_of (cart st).

Inductive Exception := SyntaxError.

(** What running an effect or a handler comes to.  [Untyped]: the stored
    text is JSON but not a serialized cart; the source puts the parsed value
    into the state unchecked, and line items of other shapes are outside
    this embedding. *)
Inductive Outcome :=
| Done (st : State)
| Threw (e : Exception)
| Untyped (parsed : json).

(** The hydration effect of [CartProvider]. *)
Definition hydrate_cart (st : State) : Outcome :=
  match localStorage_getItem "cart" st with
  | None => Done st
  | Some savedCart =>
      if truthy_string savedCart then
        match JSON_parse savedCart with
        | None => Threw SyntaxError
        | Some parsed =>
            match cart_of_json parsed with
            | Some parsedCart =>
                Done (setCartCount (sum_quantity parsedCart) (setCart parsedCart st))
            | None => Untyped parsed
            end
        end
      else Done st
  end.

(** ** Session manager ([AuthProvider]) *)

Inductive AxiosError := NetworkError | StatusError (status : Z).

(** How the promise of [axios.get] settles. *)
Inductive AxiosResult := Fulfilled (data : json) | Rejected (error : AxiosError).

(** [api token]: the answer to [GET /auth/profile] sent with [token]. *)
Definition fetchProfile (api : string -> AxiosResult) (token : string) (st : State) : State :=
  let st' :=
    match api token with
    | Fulfilled data => setUser data st
    | Rejected _ => localStorage_removeItem "session_token" st
    end in
  setLoading false st'.

(** The startup effect of [AuthProvider]. *)
Definition auth_startup (api : string -> AxiosResult) (st : State) : State :=
  match localStorage_getItem "session_token" st with
  | Some token =>
      if truthy_string token then fetchProfile api token st
      else setLoading false st
  | None => setLoading false st
  end.

Definition logout (st : State) : State :=
  setUser JNull (localStorage_removeItem "session_token" st).

(** A value in a condition ([user ? ... : ...]). *)
Definition truthy (j : json) : bool :=
  match j with
  | JNull => false
  | JBool b => b
  | JNumber n => negb (units n =? 0)
  | JString s => truthy_string s
  | JArray _ | JObject _ => true
  end.

(** ** View router ([App]) *)

Module Component.

Inductive t := Home | Products | Cart | Orders | Profile.

End Component.

Definition renderView (st : State) : Component.t :=
  let v := currentView st in
  if String.eqb v "home" then Component.Home
  else if String.eqb v "products" then Component.Products
  else if String.eqb v "cart" then Component.Cart
  else if String.eqb v "orders" then Component.Orders
  else if String.eqb v "profile" then Component.Profile
  else Component.Home.

(** The children of [<main>]. *)
Definition main_children (st : State) : list Component.t := [renderView st].

(** [window.navigateTo] *)
Definition navigateTo (view : string) (st : State) : State := setCurrentView view st.

(** ** Sessions *)

(** Mounting [App] over a given [localStorage]: the effects run children
    first, so the cart is hydrated before the session is resolved. *)
Definition mount (api : string -> AxiosResult) (storage : gmap string string) : Outcome :=
  match hydrate_cart (initial_state storage) with
  | Done st => Done (auth_startup api st)
  | failed => failed
  end.

Inductive Event :=
| EAddToCart (p : Product.t) (qty : option Z)
| ERemoveFromCart (productId : string)
| EUpdateQuantity (productId : string) (qty : Z)
| EClearCart
| ELogout
| ENavigate (view : string)
| EReload (api : string -> AxiosResult).

Definition handle (e : Event) (st : State) : Outcome :=
  match e with
  | EAddToCart p qty => Done (addToCart p qty st)
  | ERemoveFromCart productId => Done (removeFromCart productId st)
  | EUpdateQuantity productId qty => Done (updateQuantity productId qty st)
  | EClearCart => Done (clearCart st)
  | ELogout => Done (logout st)
  | ENavigate view => Done (navigateTo view st)
  | EReload api => mount api (localStorage st)
  end.

Fixpoint run (events : list Event) (st : State) : Outcome :=
  match events with
  | [] => Done st
  | e :: rest =>
      match handle e st with
      | Done st' => run rest st'
      | failed => failed
      end
  end.

(** A first visit: nothing stored, nobody signed in. *)
Definition fresh : State := setLoading false (initial_state ∅).

(** ** Induction over JSON values *)

Section json_induction.
Variable P : json -> Prop.
Hypothesis Hnull : P JNull.
Hypothesis Hbool : forall b, P (JBool b).
Hypothesis Hnumber : forall n, P (JNumber n).
Hypothesis Hstring : forall s, P (JString s).
Hypothesis Harray : forall elements, Forall P elements -> P (JArray elements).
Hypothesis Hobject :
  forall members, Forall (fun kv => P (snd kv)) members -> P (JObject members).

Fixpoint json_ind (j : json) : P j :=
  match j with
  | JNull => Hnull
  | JBool b => Hbool b
  | JNumber n => Hnumber n
  | JString s => Hstring s
  | JArray elements =>
      Harray elements
        ((fix all (l : list json) : Forall P l :=
            match l with
            | [] => List.Forall_nil P
            | x :: l' => @List.Forall_cons _ P x l' (json_ind x) (all l')
            end) elements)
  | JObject members =>
      Hobject members
        ((fix all (l : list (string * json)) : Forall (fun kv => P (snd kv)) l :=
            match l with
            | [] => List.Forall_nil _
            | kv :: l' =>
                @List.Forall_cons _ (fun kv => P (snd kv)) kv l' (json_ind (snd kv)) (all l')
            end) members)
  end.
End json_induction.

(** ** Notions used by the statements and their proofs *)

(** Text that does not go on with a digit. *)
Definition no_digit (s : list ascii) : Prop :=
  match s with
  | [] => True
  | c :: _ => digit_value c = None
  end.

(** Text that does not go on with a numeral. *)
Definition number_end (s : list ascii) : Prop :=
  match s with
  | [] => True
  | c :: _ =>
      digit_value c = None /\ is_char "." c = false /\
      is_char "e" c = false /\ is_char "E" c = false
  end.

(** Text that may follow a value inside an array or an object, or end the
    document. *)
Definition value_end (s : list ascii) : Prop :=
  match s with
  | [] => True
  | c :: _ => c = ","%char \/ c = "]"%char \/ c = "}"%char
  end.

(** The first character of a numeral. *)
Definition number_start (c : ascii) : Prop :=
  c = "-"%char \/ exists d, 0 <= d < 10 /\ c = digit_char d.

Definition reads_back (j : json) : Prop :=
  forall fuel rest,
    (length (write_json j) <= fuel)%nat -> value_end rest ->
    parse_value fuel (write_json j ++ rest) = Some (j, rest).

Definition write_member (kv : string * json) : list ascii :=
  quote_string (fst kv) ++ ":"%char :: write_json (snd kv).

Definition product_ids (c : list CartLineItem) : list string :=
  map (fun item => Product.id (product item)) c.

(** What [localStorage] holds under the key [cart] is the text of the
    in-memory cart; the key is absent only while the cart is empty. *)
Definition cart_persisted (st : State) : Prop :=
  localStorage st !! "cart" = Some (JSON_stringify (json_of_cart (cart st)))
  \/ (localStorage st !! "cart" = None /\ cart st = []).

Record cart_invariant (st : State) : Prop := CartInvariant {
  inv_count : cartCount st = sum_quantity (cart st);
  inv_unique : NoDup (product_ids (cart st));
  inv_persisted : cart_persisted st
}.



(** The sum of the quantities of the line items, as the specification
    writes it. *)
Definition total_quantity (c : list CartLineItem) : Z :=
  fold_right (fun item acc => quantity item + acc) 0 c.

Definition scenario_product (name description category : string) (inventory : Z)
    (images : list string) : Product.t :=
  Product.Make "p1" name description (Dec 999 2) category inventory images.

Definition mug : Product.t := scenario_product "Mug" "A mug" "Home" 10 [].

Definition line_total (item : CartLineItem) : number :=
  number_mul (number_of_decimal (Product.price (product item))) (number_of_Z (quantity item)).

(** The sum of the first [k] line totals, taken in cart order. *)
Fixpoint partial_total (c : list CartLineItem) (k : nat) : number :=
  match k with
  | O => number_zero
  | S k' =>
      number_add (partial_total c k')
        match c !! k' with
        | Some item => line_total item
        | None => number_zero
        end
  end.

(** Across one event, a line item keeps the product record it was created
    with: it is the record of a line item of the cart before, or the event
    is the [addToCart] of that very record for an id the cart did not hold. *)
Definition snapshots_kept (e : Event) (st st' : State) : Prop :=
  forall item',
    item' ∈ cart st' ->
    (exists item, item ∈ cart st /\ product item' = product item) \/
    (exists qty, e = EAddToCart (product item') qty /\
                 Product.id (product item') ∉ product_ids (cart st)).

Definition mug_repriced : Product.t :=
  Product.Make "p1" "Mug" "A mug" (Dec 1999 2) "Home" 10 [].

(** What is kept under the key [cart], read back as line items. *)
Definition persisted_items (st : State) : option (list CartLineItem) :=
  text ← localStorage st !! "cart"; j ← JSON_parse text; cart_of_json j.




(** A user as the data model describes one: an object with an identifier, a
    name, an email and a creation timestamp (a picture is optional).  The
    source reads [name], [email], [picture] and [created_at] off
    [response.data] and checks none of them. *)
Definition is_User (data : json) : bool :=
  match get_property "id" data, get_property "name" data,
        get_property "email" data, get_property "created_at" data with
  | Some (JString _), Some (JString _), Some (JString _), Some _ => true
  | _, _, _, _ => false
  end.

(** The profile fetch failed: the request was rejected, or what came back is
    not a user. *)
Definition profile_fetch_failed (r : AxiosResult) : Prop :=
  match r with
  | Rejected _ => True
  | Fulfilled data => is_User data = false
  end.

(** The claim as the specification words it: a failed profile fetch leaves
    nobody signed in and no token stored. *)
Definition failed_fetch_signs_out : Prop :=
  forall api token storage,
    storage !! "session_token" = Some token -> token <> EmptyString ->
    profile_fetch_failed (api token) ->
    let st := auth_startup api (initial_state storage) in
    user st = JNull /\ localStorage st !! "session_token" = None.

(** The views and their screens, as the specification lists them. *)
Definition view_table : list (string * Component.t) :=
  [("home"%string, Component.Home); ("products"%string, Component.Products);
   ("cart"%string, Component.Cart); ("orders"%string, Component.Orders);
   ("profile"%string, Component.Profile)].

Fixpoint lookup_view (view : string) (table : list (string * Component.t)) :
  option Component.t :=
  match table with
  | [] => None
  | (v, screen) :: rest => if String.eqb view v then Some screen else lookup_view view rest
  end.

Definition screen_for (view : string) : Component.t :=
  match lookup_view view view_table with
  | Some screen => screen
  | None => Component.Home
  end.

(** ** The handlers in use: further notions *)

(** The line items of an id, replaced by [f] of them. *)
Definition map_id (pid : string) (f : CartLineItem -> CartLineItem)
    (c : list CartLineItem) : list CartLineItem :=
  map (fun item => if String.eqb (Product.id (product item)) pid then f item else item) c.

Definition two_items : State :=
  addToCart mug_repriced (Some 4)
    (addToCart (Product.Make "p2" "Cup" "A cup" (Dec 5 0) "Home" 3 []) (Some 1) fresh).


(** The cart [addToCart] computes from the cart it is called on. *)
Definition added (p : Product.t) (qty : Z) (c : list CartLineItem) : list CartLineItem :=
  match find (fun item => String.eqb (Product.id (product item)) (Product.id p)) c with
  | Some _ =>
      map (fun item =>
             if String.eqb (Product.id (product item)) (Product.id p)
             then LineItem (product item) (quantity item + qty)
             else item)
          c
  | None => c ++ [LineItem p qty]
  end.

(** ** Cart screen ([Cart]) *)



Definition Cart_remove (item : CartLineItem) (st : State) : State :=
  removeFromCart (Product.id (product item)) st.

(** What the screen shows: the message of the empty cart, or the line items
    with the total, the clear button and the checkout button. *)
Inductive CartScreen :=
| EmptyCartMessage
| CartLines (lines : list CartLineItem).

Definition Cart_render (st : State) : CartScreen :=
  if (length (cart st) =? 0)%nat then EmptyCartMessage else CartLines (cart st).

Module OrderItem.

Record t := Make {
  product_id : string;
  product_name : string;
  quantity : Z;
  price : decimal
}.

End OrderItem.

Module OrderData.

Record t := Make {
  items : list OrderItem.t;
  total : number;
  payment_method : string
}.

End OrderData.

(** [axios.post(`${API}/orders`, orderData, { headers: { 'X-Session-ID': ... } })] *)
Record OrderRequest := MkOrderRequest {
  order_data : OrderData.t;
  order_session_id : option string
}.

(** [handleCheckout], up to its [await]: an alert and nothing else, or the
    request it posts. *)
Inductive CheckoutStart :=
| CheckoutAlert (message : string)
| CheckoutPost (request : OrderRequest).

Definition handleCheckout_start (st : State) : CheckoutStart :=
  if negb (truthy (user st)) then CheckoutAlert "Please login to checkout"
  else
    let orderData :=
      OrderData.Make
        (map (fun item =>
                OrderItem.Make (Product.id (product item)) (Product.name (product item))
                               (quantity item) (Product.price (product item)))
             (cart st))
        (getTotal st)
        "pending" in
    CheckoutPost (MkOrderRequest orderData (localStorage_getItem "session_token" st)).

(** [handleCheckout], from its [await] on, run on the state of that moment:
    the new state and the alert. *)
Definition handleCheckout_settle (response : AxiosResult) (st : State) : State * string :=
  match response with
  | Fulfilled _ => (clearCart st, "Order placed successfully!"%string)
  | Rejected _ => (st, "Error placing order. Please try again."%string)
  end.

(** ** Header ([Header]) *)


(** The application together with the header's own
    [useState('home')]. *)
Record Page := MkPage { page_app : State; header_currentView : string }.

(** The header's buttons: [onClick={() => setCurrentView(view)}]. *)
Definition Header_setCurrentView (view : string) (pg : Page) : Page :=
  MkPage (page_app pg) view.

(** ** Product card ([ProductCard]) *)

Definition ProductCard_disabled (p : Product.t) : bool := Product.inventory p =? 0.

(** A click on the button: nothing on a disabled one, else
    [addToCart(product)]. *)
Definition ProductCard_click (p : Product.t) (st : State) : State :=
  if ProductCard_disabled p then st else addToCart p None st.

Definition navigates (e : Event) : Prop :=
  match e with
  | ENavigate _ => True
  | _ => False
  end.

Definition order_quantity_sum (items : list OrderItem.t) : Z :=
  fold_right (fun item acc => OrderItem.quantity item + acc) 0 items.

Definition signed_in_two_items : State :=
  setUser (JObject [("name"%string, JString "Ada")])
          (localStorage_setItem "session_token" "t0" two_items).


(** Somebody is shown as signed in only while a session token is stored. *)
Definition signed_in_with_token (st : State) : Prop :=
  truthy (user st) = true ->
  exists token, localStorage st !! "session_token" = Some token /\ token <> EmptyString.


Definition ada : json := JObject [("name"%string, JString "Ada")].


(** ** Strings: [includes] and [split] *)

(** The first occurrence of [sep] in [s]: the text before it and the text
    after it. *)
Fixpoint find_first (sep s : list ascii) : option (list ascii * list ascii) :=
  match strip_prefix sep s with
  | Some rest => Some ([], rest)
  | None =>
      match s with
      | [] => None
      | c :: r =>
          match find_first sep r with
          | Some (before, after) => Some (c :: before, after)
          | None => None
          end
      end
  end.

(** [s.includes(sep)] *)
Definition String_includes (s sep : string) : bool :=
  match find_first (list_ascii_of_string sep) (list_ascii_of_string s) with
  | Some _ => true
  | None => false
  end.

(** The pieces of [s] between the occurrences of [sep], found from left to
    right; [fuel] bounds their number. *)
Fixpoint split_fuel (fuel : nat) (sep s : list ascii) : list (list ascii) :=
  match fuel with
  | O => [s]
  | S n =>
      match find_first sep s with
      | Some (before, after) => before :: split_fuel n sep after
      | None => [s]
      end
  end.

(** [s.split(sep)], for a separator that is not empty. *)
Definition String_split (s sep : string) : list string :=
  map string_of_list_ascii
      (split_fuel (String.length s) (list_ascii_of_string sep) (list_ascii_of_string s)).

(** ** Profile screen ([Profile]): the return from the login page *)

(** The effect of [Profile] on [window.location.hash]: [None] when it does
    nothing, else the argument it calls [handleAuthCallback] with, an
    element of an array that is [undefined] ([None]) when out of range. *)
Definition Profile_callback (hash : string) : option (option string) :=
  if truthy_string hash && String_includes hash "session_id=" then
    Some (String_split hash "session_id=" !! 1%nat)
  else None.

(** [String(v)], as [localStorage.setItem] applies it to its value. *)
Fixpoint ToString (j : json) : list ascii :=
  match j with
  | JNull => list_ascii_of_string "null"
  | JBool true => list_ascii_of_string "true"
  | JBool false => list_ascii_of_string "false"
  | JNumber n => Number_toString n
  | JString s => list_ascii_of_string s
  | JArray elements =>
      join_commas (map (fun x => match x with JNull => [] | _ => ToString x end) elements)
  | JObject _ => list_ascii_of_string "[object Object]"
  end.

(** The same of a property that may be missing. *)
Definition String_of_property (v : option json) : string :=
  match v with
  | Some j => string_of_list_ascii (ToString j)
  | None => "undefined"
  end.

(** [response.data.session_token]: reading a property off [null] throws. *)
Definition session_token_of (data : json) : option (option json) :=
  match data with
  | JNull => None
  | _ => Some (get_property "session_token" data)
  end.

(** What [handleAuthCallback] leaves: the state, the alert it raised and the
    address it sent the browser to. *)
Record CallbackOutcome := MkCallbackOutcome {
  callback_state : State;
  callback_alert : option string;
  callback_href : option string
}.

Definition handleAuthCallback (post : AxiosResult) (st : State) : CallbackOutcome :=
  let failed := MkCallbackOutcome st (Some "Authentication failed. Please try again."%string) None in
  match post with
  | Fulfilled data =>
      match session_token_of data with
      | Some token =>
          MkCallbackOutcome
            (localStorage_setItem "session_token" (String_of_property token) st)
            None (Some "/"%string)
      | None => failed
      end
  | Rejected _ => failed
  end.

(* ================================================================= *)
(** * Part II: properties *)
(* ================================================================= *)

(** ** Numbers *)

(** The binary64 numbers of 9.99, 49.95 and 5, by mantissa and exponent:
    [0x1.3fae147ae147bp+3], [0x1.8f9999999999ap+5] and [0x1.4p+2]. *)
Lemma number_of_decimal_examples :
  number_of_decimal (Dec 999 2) = S754_finite false 0x13fae147ae147b (-49) /\
  number_of_decimal (Dec 4995 2) = S754_finite false 0x18f9999999999a (-47) /\
  number_of_Z 5 = S754_finite false 0x14000000000000 (-50) /\
  number_mul (number_of_decimal (Dec 999 2)) (number_of_Z 5) =
    number_of_decimal (Dec 4995 2).
Proof. vm_compute. repeat split. Qed.

(** ** Numerals *)

(** Closes by [tac] a goal about a digit [d], given [0 <= d < 10], one
    digit at a time. *)
Ltac each_digit d tac :=
  let Hcases := fresh "Hcases" in
  assert (d = 0 \/ d = 1 \/ d = 2 \/ d = 3 \/ d = 4 \/
          d = 5 \/ d = 6 \/ d = 7 \/ d = 8 \/ d = 9) as Hcases by lia;
  repeat (destruct Hcases as [-> | Hcases]; [tac |]);
  subst d; tac.

Lemma digit_value_digit_char d :
  0 <= d < 10 -> digit_value (digit_char d) = Some d.
Proof. intros Hd. each_digit d ltac:(reflexivity). Qed.

Lemma scan_digits_stop acc k s :
  no_digit s -> scan_digits acc k s = (acc, k, s).
Proof. destruct s as [| c r]; simpl; [done |]. by intros ->. Qed.

Lemma scan_digits_snoc_digit acc k d rest :
  0 <= d < 10 ->
  scan_digits acc k (digit_char d :: rest) = scan_digits (acc * 10 + d) (S k) rest.
Proof. intros Hd. simpl. by rewrite digit_value_digit_char. Qed.

Lemma scan_fixed_digits w : forall n acc k rest,
  scan_digits acc k (fixed_digits w n ++ rest) =
  scan_digits (acc * 10 ^ Z.of_nat w + n mod 10 ^ Z.of_nat w) (k + w) rest.
Proof.
  induction w as [| w IH]; intros n acc k rest.
  - simpl. rewrite Z.mod_1_r, Nat.add_0_r. f_equal. lia.
  - simpl fixed_digits. rewrite <- app_assoc. simpl app. rewrite IH.
    rewrite scan_digits_snoc_digit by (apply Z.mod_pos_bound; lia).
    rewrite Nat2Z.inj_succ, Z.pow_succ_r by lia.
    rewrite (Z.rem_mul_r n 10 (10 ^ Z.of_nat w)) by lia.
    f_equal; [lia | lia].
Qed.

Lemma scan_digits_fuel fuel : forall n acc k rest,
  0 <= n < 10 ^ Z.of_nat fuel ->
  exists w,
    scan_digits acc k (digits_fuel fuel n ++ rest) =
    scan_digits (acc * 10 ^ Z.of_nat w + n) (k + w) rest.
Proof.
  induction fuel as [| fuel IH]; intros n acc k rest Hn.
  - exists O. simpl in *. rewrite Nat.add_0_r. f_equal. lia.
  - simpl digits_fuel. destruct (Z.ltb_spec n 10) as [Hlt | Hge].
    + exists 1%nat. simpl app. rewrite scan_digits_snoc_digit by lia.
      f_equal; lia.
    + rewrite Nat2Z.inj_succ, Z.pow_succ_r in Hn by lia.
      destruct (IH (n / 10) acc k (digit_char (n mod 10) :: rest)) as [w Hw].
      { split; [apply Z.div_pos; lia | apply Z.div_lt_upper_bound; lia]. }
      exists (S w). rewrite <- app_assoc. simpl app. rewrite Hw.
      rewrite scan_digits_snoc_digit by (apply Z.mod_pos_bound; lia).
      rewrite Nat2Z.inj_succ, Z.pow_succ_r by lia.
      pose proof (Z.div_mod n 10 ltac:(lia)).
      f_equal; lia.
Qed.

Lemma digits_fuel_head fuel : forall n,
  1 <= n < 10 ^ Z.of_nat fuel ->
  exists d tl, digits_fuel fuel n = digit_char d :: tl /\ 1 <= d < 10.
Proof.
  induction fuel as [| fuel IH]; intros n Hn.
  - simpl in Hn. lia.
  - simpl. destruct (Z.ltb_spec n 10) as [Hlt | Hge].
    + exists n, []. split; [done | lia].
    + rewrite Nat2Z.inj_succ, Z.pow_succ_r in Hn by lia.
      destruct (IH (n / 10)) as (d & tl & Heq & Hd).
      { split; [apply Z.div_le_lower_bound; lia | apply Z.div_lt_upper_bound; lia]. }
      exists d, (tl ++ [digit_char (n mod 10)]). by rewrite Heq.
Qed.

Lemma int_digits_fuel_enough n :
  0 <= n -> n < 10 ^ Z.of_nat (S (Z.to_nat (Z.log2 n))).
Proof.
  intros Hn. rewrite Nat2Z.inj_succ, Z2Nat.id by apply Z.log2_nonneg.
  destruct (Z.eq_dec n 0) as [-> | Hne]; [reflexivity |].
  pose proof (Z.log2_spec n ltac:(lia)) as [_ Hup].
  eapply Z.lt_le_trans; [exact Hup |].
  apply Z.pow_le_mono_l. lia.
Qed.

Lemma parse_int_int_digits n rest :
  0 <= n -> no_digit rest ->
  parse_int (int_digits n ++ rest) = Some (n, rest).
Proof.
  intros Hn Hrest. unfold int_digits.
  pose proof (int_digits_fuel_enough n Hn) as Hfuel.
  destruct (Z.eq_dec n 0) as [-> | Hne]; [reflexivity |].
  set (fuel := S (Z.to_nat (Z.log2 n))) in *.
  destruct (digits_fuel_head fuel n ltac:(lia)) as (d & tl & Heq & Hd).
  destruct (scan_digits_fuel fuel n 0 O rest ltac:(lia)) as [w Hw].
  rewrite (scan_digits_stop _ _ rest) in Hw by done.
  unfold parse_int. rewrite Hw. rewrite Heq. cbn [app].
  rewrite digit_value_digit_char by lia.
  destruct d; try lia; f_equal; f_equal; lia.
Qed.

Lemma int_digits_head n :
  0 <= n -> exists d tl, int_digits n = digit_char d :: tl /\ 0 <= d < 10.
Proof.
  intros Hn. destruct (Z.eq_dec n 0) as [-> | Hne].
  - exists 0, []. split; [reflexivity | lia].
  - pose proof (int_digits_fuel_enough n Hn) as Hfuel.
    destruct (digits_fuel_head (S (Z.to_nat (Z.log2 n))) n ltac:(lia))
      as (d & tl & Heq & Hd).
    exists d, tl. split; [exact Heq | lia].
Qed.

Lemma digit_char_not_minus d :
  0 <= d < 10 -> is_char "-" (digit_char d) = false.
Proof. intros Hd. each_digit d ltac:(reflexivity). Qed.

Lemma parse_sign_int_digits n rest :
  0 <= n -> parse_sign (int_digits n ++ rest) = (false, int_digits n ++ rest).
Proof.
  intros Hn. destruct (int_digits_head n Hn) as (d & tl & Heq & Hd).
  rewrite Heq. cbn [app parse_sign]. by rewrite digit_char_not_minus.
Qed.

Lemma parse_frac_absent rest :
  number_end rest -> parse_frac rest = Some (0, O, rest).
Proof.
  destruct rest as [| c r]; [done |]. intros (_ & Hdot & _).
  unfold parse_frac. by rewrite Hdot.
Qed.

Lemma parse_frac_fixed_digits w n rest :
  no_digit rest -> 0 <= n < 10 ^ Z.of_nat (S w) ->
  parse_frac ("."%char :: fixed_digits (S w) n ++ rest) = Some (n, S w, rest).
Proof.
  intros Hrest Hn. unfold parse_frac.
  change (is_char "." ".") with true. cbv iota.
  rewrite scan_fixed_digits, scan_digits_stop by done.
  rewrite Z.mod_small by lia. reflexivity.
Qed.

Lemma parse_exp_absent rest :
  number_end rest -> parse_exp rest = Some (0, rest).
Proof.
  destruct rest as [| c r]; [done |]. intros (_ & _ & He & HE).
  unfold parse_exp. by rewrite He, HE.
Qed.

Lemma number_end_no_digit rest : number_end rest -> no_digit rest.
Proof. destruct rest; [done |]. by intros [? _]. Qed.

Lemma parse_unsigned_number a sc neg rest :
  0 <= a -> number_end rest ->
  let p := 10 ^ Z.of_nat sc in
  let text :=
    int_digits (a / p) ++
    match sc with
    | O => []
    | S _ => "."%char :: fixed_digits sc (a mod p)
    end ++ rest in
  match parse_int text with
  | None => None
  | Some (ip, s2) =>
      match parse_frac s2 with
      | None => None
      | Some (fp, fl, s3) =>
          match parse_exp s3 with
          | None => None
          | Some (e, s4) =>
              Some (make_decimal neg (ip * 10 ^ Z.of_nat fl + fp) fl e, s4)
          end
      end
  end = Some (Dec (if neg then - a else a) sc, rest).
Proof.
  intros Ha Hrest p text. subst text.
  assert (0 < p) as Hp by (apply Z.pow_pos_nonneg; lia).
  pose proof (Z.div_mod a p ltac:(lia)) as Hdm.
  pose proof (Z.mod_pos_bound a p Hp) as Hmod.
  assert (0 <= a / p) as Hdiv by (apply Z.div_pos; lia).
  destruct sc as [| sc].
  - rewrite parse_int_int_digits by (done || by apply number_end_no_digit).
    simpl app. rewrite parse_frac_absent, parse_exp_absent by done.
    unfold make_decimal. simpl. subst p.
    change (Z.of_nat 0) with 0 in *. change (10 ^ (0 - 0)) with 1.
    change (10 ^ 0) with 1 in *. rewrite Z.div_1_r.
    destruct neg;
      [replace (- (a * 1 + 0) * 1) with (- a) by lia
      | replace ((a * 1 + 0) * 1) with a by lia]; reflexivity.
  - rewrite parse_int_int_digits by done.
    rewrite <- app_comm_cons.
    rewrite parse_frac_fixed_digits by (by apply number_end_no_digit || (fold p; lia)).
    rewrite parse_exp_absent by done.
    unfold make_decimal. fold p.
    destruct (Z.leb_spec 0 (0 - Z.of_nat (S sc))) as [Hle | Hgt]; [lia |].
    f_equal. f_equal.
    replace (a / p * p + a mod p) with a by lia.
    f_equal. lia.
Qed.

Lemma parse_number_toString d rest :
  number_end rest ->
  parse_number (Number_toString d ++ rest) = Some (d, rest).
Proof.
  intros Hrest. destruct d as [u sc]. unfold Number_toString, parse_number.
  cbn [units scale].
  destruct (Z.ltb_spec u 0) as [Hneg | Hpos].
  - cbn [app parse_sign]. change (is_char "-" "-") with true. cbv iota.
    rewrite <- app_assoc.
    rewrite (parse_unsigned_number (Z.abs u) sc true rest) by (done || lia).
    f_equal. f_equal. f_equal. lia.
  - cbn [app]. rewrite <- app_assoc.
    rewrite parse_sign_int_digits
      by (apply Z.div_pos; [lia | apply Z.pow_pos_nonneg; lia]).
    rewrite (parse_unsigned_number (Z.abs u) sc false rest) by (done || lia).
    f_equal. f_equal. f_equal. lia.
Qed.

(** ** String literals *)

Lemma parse_string_body_escape c t :
  parse_string_body (escape_char c ++ t) = cons_char c (parse_string_body t).
Proof.
  destruct c as [[] [] [] [] [] [] [] []]; reflexivity.
Qed.

Lemma parse_string_body_escaped cs rest :
  parse_string_body (flat_map escape_char cs ++ quote_char :: rest) = Some (cs, rest).
Proof.
  induction cs as [| c cs IH]; [reflexivity |].
  cbn [flat_map]. rewrite <- app_assoc, parse_string_body_escape, IH.
  reflexivity.
Qed.

Lemma parse_string_quoted s rest :
  parse_string (flat_map escape_char (list_ascii_of_string s) ++ quote_char :: rest)
  = Some (s, rest).
Proof.
  unfold parse_string. rewrite parse_string_body_escaped.
  by rewrite string_of_list_ascii_of_string.
Qed.

(** ** [JSON.parse] reads back what [JSON.stringify] writes *)

Lemma value_end_number_end s : value_end s -> number_end s.
Proof.
  destruct s as [| c r]; [done |].
  intros [-> | [-> | ->]]; repeat split; reflexivity.
Qed.

Lemma number_start_cases (Q : ascii -> Prop) c :
  number_start c ->
  Q "-"%char -> Q "0"%char -> Q "1"%char -> Q "2"%char -> Q "3"%char ->
  Q "4"%char -> Q "5"%char -> Q "6"%char -> Q "7"%char -> Q "8"%char ->
  Q "9"%char -> Q c.
Proof.
  intros [-> | (d & Hd & ->)]; [done |]. intros _ **.
  each_digit d ltac:(assumption).
Qed.

Lemma Number_toString_head d :
  exists c tl, Number_toString d = c :: tl /\ number_start c.
Proof.
  unfold Number_toString. destruct (units d <? 0).
  - eexists _, _. split; [reflexivity | by left].
  - destruct (int_digits_head (Z.abs (units d) / 10 ^ Z.of_nat (scale d)))
      as (c & tl & Heq & Hc).
    { apply Z.div_pos; [lia | apply Z.pow_pos_nonneg; lia]. }
    rewrite Heq. eexists _, _. split; [reflexivity |]. right. by exists c.
Qed.

Lemma parse_value_number n c tl :
  number_start c ->
  parse_value (S n) (c :: tl) =
  match parse_number (c :: tl) with
  | Some (d, r) => Some (JNumber d, r)
  | None => None
  end.
Proof.
  intros Hc. revert tl. pattern c.
  apply (number_start_cases _ c Hc); intros tl; reflexivity.
Qed.

Lemma skip_ws_cons c r : is_ws c = false -> skip_ws (c :: r) = c :: r.
Proof. intros H. simpl. by rewrite H. Qed.

(** No value starts with white space or with a closing bracket. *)
Lemma write_json_head j :
  exists c tl, write_json j = c :: tl /\ is_ws c = false /\ is_char "]" c = false.
Proof.
  destruct j as [| [] | d | s | l | ms];
    try (eexists _, _; split; [reflexivity | split; reflexivity]).
  destruct (Number_toString_head d) as (c & tl & Heq & Hc).
  exists c, tl. split; [exact Heq |].
  pattern c. apply (number_start_cases _ c Hc); split; reflexivity.
Qed.

Lemma write_json_nonempty j : (1 <= length (write_json j))%nat.
Proof.
  destruct (write_json_head j) as (c & tl & Heq & _). rewrite Heq. simpl. lia.
Qed.

Lemma join_commas_map_cons {A} (f : A -> list ascii) x y l :
  join_commas (map f (x :: y :: l)) = f x ++ ","%char :: join_commas (map f (y :: l)).
Proof. reflexivity. Qed.

Lemma length_join_commas_map_cons {A} (f : A -> list ascii) x y l :
  length (join_commas (map f (x :: y :: l))) =
  (length (f x) + 1 + length (join_commas (map f (y :: l))))%nat.
Proof. rewrite join_commas_map_cons, length_app. simpl. lia. Qed.

Lemma parse_elements_written l :
  Forall reads_back l -> l <> [] ->
  forall fuel rest,
    (length (join_commas (map write_json l)) < fuel)%nat ->
    parse_elements fuel (join_commas (map write_json l) ++ "]"%char :: rest)
    = Some (l, rest).
Proof.
  induction 1 as [| x l Hx Hl IH]; [done |]. intros _ fuel rest Hfuel.
  destruct fuel as [| n]; [lia |].
  pose proof (write_json_nonempty x) as Hnonempty.
  destruct l as [| y l].
  - cbn [map join_commas] in *. cbn [parse_elements].
    rewrite (Hx n ("]"%char :: rest)) by (lia || by right; left).
    reflexivity.
  - rewrite length_join_commas_map_cons in Hfuel.
    rewrite join_commas_map_cons, <- app_assoc. cbn [app parse_elements].
    rewrite (Hx n) by (lia || by left).
    rewrite skip_ws_cons by reflexivity.
    change (is_char "," ",") with true. cbv iota.
    rewrite IH by (done || lia).
    reflexivity.
Qed.

Lemma write_member_unfold k v rest :
  write_member (k, v) ++ rest =
  quote_char ::
    flat_map escape_char (list_ascii_of_string k) ++
    quote_char :: ":"%char :: write_json v ++ rest.
Proof.
  unfold write_member, quote_string. cbn [fst snd].
  rewrite <- !app_assoc. cbn [app]. rewrite <- !app_assoc. reflexivity.
Qed.

Lemma length_write_member k v :
  (length (write_json v) + 3 <= length (write_member (k, v)))%nat.
Proof.
  unfold write_member, quote_string. cbn [fst snd].
  rewrite length_app. cbn [length]. rewrite length_app. simpl. lia.
Qed.

Lemma parse_members_written ms :
  Forall (fun kv => reads_back (snd kv)) ms -> ms <> [] ->
  forall fuel rest,
    (length (join_commas (map write_member ms)) < fuel)%nat ->
    parse_members fuel (join_commas (map write_member ms) ++ "}"%char :: rest)
    = Some (ms, rest).
Proof.
  induction 1 as [| [k v] ms Hv Hms IH]; [done |]. intros _ fuel rest Hfuel.
  destruct fuel as [| n]; [lia |]. cbn [snd] in Hv.
  pose proof (length_write_member k v) as Hlen.
  destruct ms as [| kv' ms].
  - cbn [map join_commas] in *. rewrite write_member_unfold.
    cbn [parse_members]. rewrite skip_ws_cons by reflexivity.
    change (code quote_char =? 34) with true. cbv iota.
    rewrite parse_string_quoted, skip_ws_cons by reflexivity.
    change (is_char ":" ":") with true. cbv iota.
    rewrite (Hv n) by (lia || by right; right).
    reflexivity.
  - rewrite length_join_commas_map_cons in Hfuel.
    rewrite join_commas_map_cons, <- app_assoc, write_member_unfold.
    cbn [parse_members]. rewrite skip_ws_cons by reflexivity.
    change (code quote_char =? 34) with true. cbv iota.
    rewrite parse_string_quoted, skip_ws_cons by reflexivity.
    change (is_char ":" ":") with true. cbv iota. cbn [app].
    rewrite (Hv n) by (lia || by left).
    rewrite skip_ws_cons by reflexivity.
    change (is_char "," ",") with true. cbv iota.
    rewrite IH by (done || lia).
    reflexivity.
Qed.

Lemma write_json_object ms :
  write_json (JObject ms) =
  "{"%char :: join_commas (map write_member ms) ++ ["}"%char].
Proof. reflexivity. Qed.

Lemma write_json_array l :
  write_json (JArray l) = "["%char :: join_commas (map write_json l) ++ ["]"%char].
Proof. reflexivity. Qed.

Lemma parse_value_written j : reads_back j.
Proof.
  induction j as [| b | d | s | l IH | ms IH] using json_ind;
    intros fuel rest Hfuel Hrest.
  - destruct fuel as [| n]; [simpl in Hfuel; lia | reflexivity].
  - destruct fuel as [| n]; [destruct b; simpl in Hfuel; lia |].
    destruct b; reflexivity.
  - pose proof (write_json_nonempty (JNumber d)).
    destruct fuel as [| n]; [lia |]. cbn [write_json].
    destruct (Number_toString_head d) as (c & tl & Heq & Hc).
    rewrite Heq. cbn [app]. rewrite parse_value_number by done.
    rewrite app_comm_cons, <- Heq.
    rewrite parse_number_toString by (by apply value_end_number_end).
    reflexivity.
  - destruct fuel as [| n]; [simpl in Hfuel; lia |].
    cbn [write_json]. unfold quote_string. cbn [app]. rewrite <- app_assoc.
    cbn [app parse_value]. rewrite skip_ws_cons by reflexivity.
    change (is_char "[" quote_char) with false.
    change (is_char "{" quote_char) with false.
    change (code quote_char =? 34) with true. cbv iota.
    rewrite parse_string_quoted. reflexivity.
  - rewrite write_json_array in *.
    destruct fuel as [| n]; [simpl in Hfuel; lia |].
    cbn [length] in Hfuel. rewrite length_app in Hfuel. cbn [length] in Hfuel.
    cbn [app]. rewrite <- app_assoc. cbn [app parse_value].
    rewrite skip_ws_cons by reflexivity.
    change (is_char "[" "[") with true. cbv iota.
    destruct l as [| x l]; [reflexivity |].
    destruct (write_json_head x) as (c & tl & Heq & Hws & Hclose).
    assert (exists tl', join_commas (map write_json (x :: l)) ++ "]"%char :: rest
                        = c :: tl') as [tl' Htl].
    { destruct l; [cbn [map join_commas] | rewrite join_commas_map_cons];
        rewrite Heq; eexists; reflexivity. }
    rewrite Htl at 1. rewrite skip_ws_cons by done. rewrite Hclose.
    rewrite parse_elements_written by (done || lia).
    reflexivity.
  - rewrite write_json_object in *.
    destruct fuel as [| n]; [simpl in Hfuel; lia |].
    cbn [length] in Hfuel. rewrite length_app in Hfuel. cbn [length] in Hfuel.
    cbn [app]. rewrite <- app_assoc. cbn [app parse_value].
    rewrite skip_ws_cons by reflexivity.
    change (is_char "[" "{") with false.
    change (is_char "{" "{") with true. cbv iota.
    destruct ms as [| [k v] ms]; [reflexivity |].
    assert (exists tl', join_commas (map write_member ((k, v) :: ms)) ++ "}"%char :: rest
                        = quote_char :: tl') as [tl' Htl].
    { destruct ms; [cbn [map join_commas] | rewrite join_commas_map_cons];
        eexists; reflexivity. }
    rewrite Htl at 1. rewrite skip_ws_cons by reflexivity.
    change (is_char "}" quote_char) with false. cbv iota.
    rewrite parse_members_written by (done || lia).
    reflexivity.
Qed.

(** Parsing the text of a value gives the value back. *)
Lemma JSON_parse_stringify j : JSON_parse (JSON_stringify j) = Some j.
Proof.
  unfold JSON_parse, JSON_stringify.
  rewrite list_ascii_of_string_of_list_ascii.
  rewrite <- (app_nil_r (write_json j)) at 2.
  rewrite parse_value_written by (done || lia).
  reflexivity.
Qed.

Lemma JSON_parse_examples :
  JSON_parse "[1, 2.50, -3e2, true, null, [], {}]" =
    Some (JArray [JNumber (Dec 1 0); JNumber (Dec 250 2); JNumber (Dec (-300) 0);
                  JBool true; JNull; JArray []; JObject []]) /\
  JSON_parse "{" = None /\
  JSON_parse "[1,]" = None /\
  JSON_parse "[1 2]" = None /\
  JSON_parse "01" = None /\
  JSON_parse "nul" = None /\
  JSON_parse "undefined" = None /\
  JSON_parse EmptyString = None.
Proof. vm_compute. repeat split. Qed.

(** ** A serialized cart decodes to its line items *)

Lemma Z_of_json_of_Z z : Z_of_json (json_of_Z z) = Some z.
Proof.
  unfold Z_of_json, json_of_Z. cbn [units scale].
  change (10 ^ Z.of_nat 0) with 1. by rewrite Z.mod_1_r, Z.div_1_r.
Qed.

Lemma strings_of_jsons_strings l : strings_of_jsons (map JString l) = Some l.
Proof. induction l as [| s l IH]; [done |]. cbn. by rewrite IH. Qed.

Lemma product_of_json_of_product p : product_of_json (json_of_product p) = Some p.
Proof.
  destruct p as [i n d pr c inv imgs]. unfold product_of_json, json_of_product.
  cbn -[Z_of_json json_of_Z strings_of_jsons].
  rewrite Z_of_json_of_Z. cbn -[strings_of_jsons].
  rewrite strings_of_jsons_strings. reflexivity.
Qed.

Lemma item_of_json_of_item item : item_of_json (json_of_item item) = Some item.
Proof.
  destruct item as [p q]. unfold item_of_json, json_of_item.
  cbn -[Z_of_json json_of_Z product_of_json json_of_product].
  rewrite product_of_json_of_product.
  cbn -[Z_of_json json_of_Z]. rewrite Z_of_json_of_Z. reflexivity.
Qed.

Lemma cart_of_json_of_cart c : cart_of_json (json_of_cart c) = Some c.
Proof.
  unfold cart_of_json, json_of_cart.
  induction c as [| item c IH]; [done |].
  cbn [map items_of_jsons]. rewrite item_of_json_of_item. cbn.
  by rewrite IH.
Qed.

Lemma truthy_stringify_cart c :
  truthy_string (JSON_stringify (json_of_cart c)) = true.
Proof. reflexivity. Qed.

(** ** The cart store's invariant *)

Lemma commit_cart_invariant c st :
  NoDup (product_ids c) -> cart_invariant (commit_cart c st).
Proof.
  intros Hc. split; [reflexivity | exact Hc |].
  left. cbn. apply lookup_insert_eq.
Qed.

Lemma find_same_id_None pid c :
  find (fun item => String.eqb (Product.id (product item)) pid) c = None ->
  pid ∉ product_ids c.
Proof.
  induction c as [| item c IH]; cbn; [intros _; apply not_elem_of_nil |].
  destruct (String.eqb_spec (Product.id (product item)) pid) as [Heq | Hne];
    [done |].
  intros Hfind. apply not_elem_of_cons. split; [congruence | by apply IH].
Qed.

Lemma find_same_id_Some pid c item :
  find (fun item => String.eqb (Product.id (product item)) pid) c = Some item ->
  pid ∈ product_ids c.
Proof.
  induction c as [| item' c IH]; cbn; [done |].
  destruct (String.eqb_spec (Product.id (product item')) pid) as [Heq | Hne].
  - intros _. rewrite Heq. apply elem_of_cons. by left.
  - intros Hfind. apply elem_of_cons. right. by apply IH.
Qed.

Lemma product_ids_map_quantity (f : CartLineItem -> CartLineItem) c :
  (forall item, product (f item) = product item) ->
  product_ids (map f c) = product_ids c.
Proof.
  intros Hf. unfold product_ids. rewrite map_map.
  apply map_ext. intros item. by rewrite Hf.
Qed.

Lemma product_ids_app c1 c2 :
  product_ids (c1 ++ c2) = product_ids c1 ++ product_ids c2.
Proof. apply map_app. Qed.

Lemma product_ids_filter_elem (f : CartLineItem -> bool) c pid :
  pid ∈ product_ids (List.filter f c) -> pid ∈ product_ids c.
Proof.
  induction c as [| item c IH]; cbn; [done |].
  destruct (f item); cbn.
  - intros [-> | Hin]%elem_of_cons; apply elem_of_cons; [by left |].
    right. by apply IH.
  - intros Hin. apply elem_of_cons. right. by apply IH.
Qed.

Lemma NoDup_product_ids_filter (f : CartLineItem -> bool) c :
  NoDup (product_ids c) -> NoDup (product_ids (List.filter f c)).
Proof.
  induction c as [| item c IH]; cbn; [done |].
  intros [Hnotin Hnodup]%NoDup_cons. destruct (f item); cbn.
  - apply NoDup_cons. split; [| by apply IH].
    intros Hin. apply Hnotin. by eapply product_ids_filter_elem.
  - by apply IH.
Qed.

Lemma addToCart_unique p qty st :
  NoDup (product_ids (cart st)) -> NoDup (product_ids (cart (addToCart p (Some qty) st))).
Proof.
  intros Hnodup. unfold addToCart; cbn [from_option id].
  destruct (find _ (cart st)) as [existing |] eqn:Hfind; cbn [commit_cart cart setCart setCartCount localStorage_setItem].
  - rewrite product_ids_map_quantity; [done |].
    intros item. by destruct (String.eqb _ _).
  - rewrite product_ids_app. apply NoDup_app. split; [done |]. split.
    + intros pid Hin ->%list_elem_of_singleton.
      by apply find_same_id_None in Hfind.
    + apply NoDup_singleton.
Qed.

Lemma removeFromCart_unique pid st :
  NoDup (product_ids (cart st)) -> NoDup (product_ids (cart (removeFromCart pid st))).
Proof. intros Hnodup. by apply NoDup_product_ids_filter. Qed.

Lemma updateQuantity_unique pid qty st :
  NoDup (product_ids (cart st)) -> NoDup (product_ids (cart (updateQuantity pid qty st))).
Proof.
  intros Hnodup. unfold updateQuantity. destruct (qty <=? 0).
  - by apply removeFromCart_unique.
  - cbn. rewrite product_ids_map_quantity; [done |].
    intros item. by destruct (String.eqb _ _).
Qed.

Lemma addToCart_invariant p qty st :
  cart_invariant st -> cart_invariant (addToCart p (Some qty) st).
Proof.
  intros [_ Hnodup _]. apply (addToCart_unique p qty) in Hnodup.
  by apply commit_cart_invariant.
Qed.

Lemma removeFromCart_invariant pid st :
  cart_invariant st -> cart_invariant (removeFromCart pid st).
Proof.
  intros [_ Hnodup _]. apply (removeFromCart_unique pid) in Hnodup.
  by apply commit_cart_invariant.
Qed.

Lemma updateQuantity_invariant pid qty st :
  cart_invariant st -> cart_invariant (updateQuantity pid qty st).
Proof.
  intros Hinv. unfold updateQuantity. destruct (qty <=? 0) eqn:Hq.
  - by apply removeFromCart_invariant.
  - destruct Hinv as [_ Hnodup _].
    apply (updateQuantity_unique pid qty) in Hnodup.
    unfold updateQuantity in Hnodup. rewrite Hq in Hnodup.
    by apply commit_cart_invariant.
Qed.

Lemma clearCart_invariant st : cart_invariant (clearCart st).
Proof.
  split; [reflexivity | apply NoDup_nil_2 |].
  right. split; [| reflexivity]. cbn. apply lookup_delete_eq.
Qed.

(** Hydrating from a store the cart store wrote gives the cart back. *)
Lemma hydrate_cart_persisted st :
  cartCount st = sum_quantity (cart st) -> cart_persisted st ->
  hydrate_cart (initial_state (localStorage st)) =
  Done (setCartCount (cartCount st) (setCart (cart st) (initial_state (localStorage st)))).
Proof.
  intros Hcount [Hstored | [Habsent Hempty]]; unfold hydrate_cart, localStorage_getItem;
    cbn [localStorage initial_state].
  - rewrite Hstored, truthy_stringify_cart, JSON_parse_stringify, cart_of_json_of_cart.
    by rewrite Hcount.
  - rewrite Habsent, Hcount, Hempty. reflexivity.
Qed.

Lemma auth_startup_cart api st :
  cart (auth_startup api st) = cart st /\
  cartCount (auth_startup api st) = cartCount st /\
  localStorage (auth_startup api st) !! "cart" = localStorage st !! "cart".
Proof.
  unfold auth_startup, fetchProfile, localStorage_getItem.
  destruct (localStorage st !! "session_token") as [token |]; [| done].
  destruct (truthy_string token); [| done].
  destruct (api token); cbn; [done |].
  repeat split. by apply lookup_delete_ne.
Qed.

Lemma mount_persisted api st :
  cart_invariant st ->
  exists st', mount api (localStorage st) = Done st' /\
              cart st' = cart st /\ cartCount st' = cartCount st /\
              cart_invariant st'.
Proof.
  intros [Hcount Hnodup Hpersisted]. unfold mount.
  rewrite hydrate_cart_persisted by done.
  eexists. split; [reflexivity |].
  destruct (auth_startup_cart api
    (setCartCount (cartCount st) (setCart (cart st) (initial_state (localStorage st)))))
    as (Hcart & Hcnt & Hkey).
  rewrite Hcart, Hcnt. repeat split; try done.
  - by rewrite Hcart, Hcnt.
  - by rewrite Hcart.
  - unfold cart_persisted. rewrite Hkey, Hcart. exact Hpersisted.
Qed.

Lemma handle_invariant e st :
  cart_invariant st -> exists st', handle e st = Done st' /\ cart_invariant st'.
Proof.
  intros Hinv. destruct e as [p qty | pid | pid qty | | | view | api]; cbn [handle].
  - eexists; split; [done | by apply addToCart_invariant].
  - eexists; split; [done | by apply removeFromCart_invariant].
  - eexists; split; [done | by apply updateQuantity_invariant].
  - eexists; split; [done | by apply clearCart_invariant].
  - eexists; split; [done |]. destruct Hinv as [Hc Hn Hp].
    split; [done | done |]. unfold cart_persisted, logout. cbn.
    by rewrite lookup_delete_ne.
  - eexists; split; [done |]. by destruct Hinv.
  - destruct (mount_persisted api st Hinv) as (st' & Hmount & _ & _ & Hinv').
    by exists st'.
Qed.

(** An invariant of the handlers is an invariant of every session. *)
Lemma run_preserves (I : State -> Prop) (allowed : Event -> Prop) :
  (forall e st, allowed e -> I st -> exists st', handle e st = Done st' /\ I st') ->
  forall events st,
    Forall allowed events -> I st -> exists st', run events st = Done st' /\ I st'.
Proof.
  intros Hstep events. induction events as [| e events IH]; intros st Hall HI.
  - by exists st.
  - apply Forall_cons in Hall as [He Hall].
    destruct (Hstep e st He HI) as (st1 & Hhandle & HI1).
    cbn [run]. rewrite Hhandle. by apply IH.
Qed.

(** Mounting over an empty store gives the first visit. *)
Lemma mount_empty api : mount api ∅ = Done fresh.
Proof. reflexivity. Qed.

Lemma fresh_invariant : cart_invariant fresh.
Proof.
  split; [reflexivity | apply NoDup_nil_2 |]. right. by split.
Qed.

Lemma run_invariant events :
  exists st, run events fresh = Done st /\ cart_invariant st.
Proof.
  apply (run_preserves cart_invariant (fun _ => True)).
  - intros e st _. apply handle_invariant.
  - by apply Forall_forall.
  - apply fresh_invariant.
Qed.

(** ** The item count *)

Lemma fold_left_quantity_acc c acc :
  fold_left (fun sum item => sum + quantity item) c acc = acc + total_quantity c.
Proof.
  revert acc. induction c as [| item c IH]; intros acc; [cbn; lia |].
  cbn [fold_left]. rewrite IH.
  change (total_quantity (item :: c)) with (quantity item + total_quantity c).
  lia.
Qed.

Lemma sum_quantity_total c : sum_quantity c = total_quantity c.
Proof. unfold sum_quantity. rewrite fold_left_quantity_acc. lia. Qed.


(** ** Adding *)

Lemma addToCart_default p st : addToCart p None st = addToCart p (Some 1) st.
Proof. reflexivity. Qed.

Lemma product_ids_find pid c :
  pid ∈ product_ids c ->
  exists item, find (fun item => String.eqb (Product.id (product item)) pid) c = Some item.
Proof.
  intros Hin.
  destruct (find _ c) as [item |] eqn:Hfind; [by exists item |].
  by apply find_same_id_None in Hfind.
Qed.

Lemma lookup_map_item (f : CartLineItem -> CartLineItem) c i item :
  c !! i = Some item -> map f c !! i = Some (f item).
Proof.
  revert i. induction c as [| x c IH]; intros [| i]; cbn; try done.
  - by intros [= ->].
  - apply IH.
Qed.



(** ** Updating and removing *)

Lemma not_elem_of_ids_filter pid c :
  pid ∉ product_ids
          (List.filter (fun item => negb (String.eqb (Product.id (product item)) pid)) c).
Proof.
  induction c as [| item c IH]; cbn; [apply not_elem_of_nil |].
  destruct (String.eqb_spec (Product.id (product item)) pid) as [Heq | Hne]; cbn;
    [exact IH |].
  apply not_elem_of_cons. split; [congruence | exact IH].
Qed.

(** C3: [updateQuantity(productId, quantity)] with [quantity <= 0] is
    [removeFromCart(productId)] -- for 0 and for -1 the line item is gone --
    and with [quantity > 0] it sets the quantity of the line item of that id
    to exactly [quantity] and leaves every other line item as it was. *)
Theorem updateQuantity_removes_or_sets :
  (forall pid qty st, qty <= 0 -> updateQuantity pid qty st = removeFromCart pid st) /\
  (forall pid st,
      (pid ∉ product_ids (cart (updateQuantity pid 0 st))) /\
      (pid ∉ product_ids (cart (updateQuantity pid (-1) st)))) /\
  (forall pid qty st,
      0 < qty ->
      length (cart (updateQuantity pid qty st)) = length (cart st) /\
      forall i item,
        cart st !! i = Some item ->
        cart (updateQuantity pid qty st) !! i =
        Some (if String.eqb (Product.id (product item)) pid
              then LineItem (product item) qty
              else item)).
Proof.
  split; [| split].
  - intros pid qty st Hq. unfold updateQuantity.
    destruct (Z.leb_spec qty 0); [reflexivity | lia].
  - intros pid st. split; apply not_elem_of_ids_filter.
  - intros pid qty st Hq. unfold updateQuantity.
    destruct (Z.leb_spec qty 0); [lia |].
    cbn [commit_cart cart setCart setCartCount localStorage_setItem].
    split; [apply length_map |].
    intros i item Hi. by rewrite (lookup_map_item _ _ _ _ Hi).
Qed.

Lemma updateQuantity_removes_or_sets_witness :
  updateQuantity "p1" (-1) (addToCart mug (Some 2) fresh) = removeFromCart "p1" (addToCart mug (Some 2) fresh) /\
  cart (updateQuantity "p1" 7 (addToCart mug (Some 2) fresh)) !! 0%nat = Some (LineItem mug 7).
Proof.
  split.
  - apply (proj1 updateQuantity_removes_or_sets). lia.
  - refine (proj2 (proj2 (proj2 updateQuantity_removes_or_sets) "p1"%string 7
                     (addToCart mug (Some 2) fresh) _) 0%nat (LineItem mug 2) eq_refl).
    lia.
Defined.

(** ** The total *)

Lemma total_of_snoc c item :
  total_of (c ++ [item]) = number_add (total_of c) (line_total item).
Proof. unfold total_of. by rewrite fold_left_app. Qed.

Lemma partial_total_app c c' k :
  (k <= length c)%nat -> partial_total (c ++ c') k = partial_total c k.
Proof.
  induction k as [| k IH]; intros Hk; [done |].
  cbn [partial_total]. rewrite IH by lia. by rewrite lookup_app_l by lia.
Qed.

Lemma total_of_partial_total c : total_of c = partial_total c (length c).
Proof.
  induction c as [| item c IH] using rev_ind; [reflexivity |].
  rewrite total_of_snoc, length_app, Nat.add_comm. cbn [length Nat.add partial_total].
  rewrite partial_total_app by lia. rewrite <- IH.
  by rewrite lookup_app_r, Nat.sub_diag by lia.
Qed.

Lemma elem_of_map_item (f : CartLineItem -> CartLineItem) c item' :
  item' ∈ map f c -> exists item, item ∈ c /\ item' = f item.
Proof.
  intros Hin. apply list_elem_of_In, in_map_iff in Hin as (item & <- & Hin).
  exists item. split; [by apply list_elem_of_In | done].
Qed.

Lemma elem_of_filter_item (f : CartLineItem -> bool) c item :
  item ∈ List.filter f c -> item ∈ c.
Proof.
  intros Hin. apply list_elem_of_In, filter_In in Hin as [Hin _].
  by apply list_elem_of_In.
Qed.

Lemma run_reaches_invariant events st :
  run events fresh = Done st -> cart_invariant st.
Proof.
  intros Hrun. destruct (run_invariant events) as (st0 & Hrun0 & Hinv).
  congruence.
Qed.

Lemma handle_snapshots_kept e st st' :
  cart_invariant st -> handle e st = Done st' -> snapshots_kept e st st'.
Proof.
  intros Hinv Hhandle item' Hin.
  destruct e as [p qty | pid | pid qty | | | view | api]; cbn [handle] in Hhandle;
    try (injection Hhandle as <-).
  - unfold addToCart in Hin; cbn [from_option id] in Hin.
    destruct (find _ (cart st)) as [existing |] eqn:Hfind;
      cbn [commit_cart cart setCart setCartCount localStorage_setItem] in Hin.
    + apply elem_of_map_item in Hin as (item & Hitem & ->).
      left. exists item. split; [done |]. by destruct (String.eqb _ _).
    + apply elem_of_app in Hin as [Hin | ->%list_elem_of_singleton].
      * left. by exists item'.
      * right. exists qty. split; [done |]. by apply find_same_id_None.
  - left. exists item'. split; [| done].
    exact (elem_of_filter_item _ _ _ Hin).
  - unfold updateQuantity in Hin. destruct (qty <=? 0).
    + left. exists item'. split; [| done].
      exact (elem_of_filter_item _ _ _ Hin).
    + cbn [commit_cart cart setCart setCartCount localStorage_setItem] in Hin.
      apply elem_of_map_item in Hin as (item & Hitem & ->).
      left. exists item. split; [done |]. by destruct (String.eqb _ _).
  - by apply elem_of_nil in Hin.
  - left. by exists item'.
  - left. by exists item'.
  - destruct (mount_persisted api st Hinv) as (st1 & Hmount & Hcart & _).
    rewrite Hmount in Hhandle. injection Hhandle as <-.
    rewrite Hcart in Hin. left. by exists item'.
Qed.

(** C4: [getTotal()] is the sum, over the line items of the cart at the time
    of the call and in their order, of the stored price times the quantity;
    it is a function of the current cart alone.  The price is the one of the
    product record stored when the line item was created: no event replaces
    that record, and adding a product of the same id again, whatever price
    it now carries, leaves the stored price in use. *)
Theorem getTotal_sums_price_snapshots :
  (forall st, getTotal st = partial_total (cart st) (length (cart st))) /\
  (forall st1 st2, cart st1 = cart st2 -> getTotal st1 = getTotal st2) /\
  (forall events st e st',
      run events fresh = Done st -> handle e st = Done st' ->
      snapshots_kept e st st') /\
  (forall p p' qty qty' st,
      Product.id p' = Product.id p -> cart st = [LineItem p qty] ->
      cart (addToCart p' (Some qty') st) = [LineItem p (qty + qty')] /\
      getTotal (addToCart p' (Some qty') st) =
      number_add number_zero
        (number_mul (number_of_decimal (Product.price p)) (number_of_Z (qty + qty')))).
Proof.
  split; [| split; [| split]].
  - intros st. apply total_of_partial_total.
  - intros st1 st2 Hcart. unfold getTotal. by rewrite Hcart.
  - intros events st e st' Hrun Hhandle.
    eapply handle_snapshots_kept; [| exact Hhandle].
    by eapply run_reaches_invariant.
  - intros p p' qty qty' st Hid Hcart.
    assert (cart (addToCart p' (Some qty') st) = [LineItem p (qty + qty')]) as Hnew.
    { unfold addToCart; cbn [from_option id]. rewrite Hcart, Hid. cbn [find product].
      rewrite String.eqb_refl. cbn [map product quantity].
      by rewrite String.eqb_refl. }
    split; [exact Hnew |]. unfold getTotal. rewrite Hnew. reflexivity.
Qed.

Lemma getTotal_sums_price_snapshots_witness :
  snapshots_kept (EAddToCart mug_repriced (Some 3)) (addToCart mug (Some 2) fresh)
                 (addToCart mug_repriced (Some 3) (addToCart mug (Some 2) fresh)) /\
  getTotal (addToCart mug_repriced (Some 3) (addToCart mug (Some 2) fresh)) =
  number_add number_zero (number_mul (number_of_decimal (Dec 999 2)) (number_of_Z 5)).
Proof.
  split.
  - exact (proj1 (proj2 (proj2 getTotal_sums_price_snapshots))
             [EAddToCart mug (Some 2)] (addToCart mug (Some 2) fresh)
             (EAddToCart mug_repriced (Some 3)) _ eq_refl eq_refl).
  - exact (proj2 (proj2 (proj2 (proj2 getTotal_sums_price_snapshots))
                    mug mug_repriced 2 3 (addToCart mug (Some 2) fresh) eq_refl eq_refl)).
Defined.

(** ** Positive quantities *)











Lemma addToCart_zero_persisted :
  persisted_items (addToCart mug (Some 0) fresh) = Some [LineItem mug 0].
Proof. vm_compute. reflexivity. Qed.

(** ** Reloading *)


(** ** Hydration *)




(** ** Session *)

(** C8, as stated, fails: a response that is not a user is taken for one. *)
Lemma failed_fetch_signs_out_fails : ~ failed_fetch_signs_out.
Proof.
  intros Hclaim.
  destruct (Hclaim (fun _ => Fulfilled (JObject [])) "t0"%string
                   (<["session_token" := "t0"]> ∅)) as [Huser _].
  - apply lookup_insert_eq.
  - discriminate.
  - reflexivity.
  - unfold auth_startup, localStorage_getItem in Huser.
    cbn [localStorage initial_state] in Huser.
    rewrite lookup_insert_eq in Huser. discriminate Huser.
Qed.

(** C8, as amended: with a token stored, when the profile request is
    rejected -- the network failed, or the backend answered with an error
    status such as 401 -- startup ends unauthenticated, with [user] null,
    [loading] false and the stored token removed, the rest of the store
    untouched.  A response that is delivered is not inspected: its data
    becomes [user] and the token stays. *)
Theorem auth_startup_settles api token storage :
  storage !! "session_token" = Some token -> token <> EmptyString ->
  let st := auth_startup api (initial_state storage) in
  match api token with
  | Rejected _ =>
      user st = JNull /\ truthy (user st) = false /\ loading st = false /\
      localStorage st !! "session_token" = None /\
      (forall key, key <> "session_token"%string ->
         localStorage st !! key = storage !! key)
  | Fulfilled data =>
      user st = data /\ loading st = false /\ localStorage st = storage
  end.
Proof.
  intros Htoken Hne. unfold auth_startup, localStorage_getItem, fetchProfile.
  cbn [localStorage initial_state]. rewrite Htoken.
  destruct token as [| c token]; [done |]. cbn [truthy_string].
  destruct (api (String c token)) as [data | error]; cbn; [done |].
  repeat split.
  - apply lookup_delete_eq.
  - intros key Hkey. by apply lookup_delete_ne.
Qed.

Lemma auth_startup_settles_witness :
  let storage : gmap string string := <["session_token" := "t0"]> ∅ in
  let st := auth_startup (fun _ => Rejected (StatusError 401)) (initial_state storage) in
  user st = JNull /\ truthy (user st) = false /\ loading st = false /\
  localStorage st !! "session_token" = None /\
  (forall key, key <> "session_token"%string -> localStorage st !! key = storage !! key).
Proof.
  refine (auth_startup_settles (fun _ => Rejected (StatusError 401)) "t0"
            (<["session_token" := "t0"]> ∅) (lookup_insert_eq _ _ _) _).
  discriminate.
Defined.

Lemma no_token_no_fetch api storage :
  storage !! "session_token" = None ->
  auth_startup api (initial_state storage) = setLoading false (initial_state storage).
Proof.
  intros Htoken. unfold auth_startup, localStorage_getItem.
  cbn [localStorage initial_state]. by rewrite Htoken.
Qed.

(** ** Routing *)

Lemma renderView_screen_for st : renderView st = screen_for (currentView st).
Proof.
  unfold renderView, screen_for, view_table. cbn [lookup_view].
  repeat (destruct (String.eqb (currentView st) _); [reflexivity |]).
  reflexivity.
Qed.

(** C9: after [navigateTo(view)], for any value, exactly one screen is
    rendered: the screen of [view] when it is one of home, products, cart,
    orders, profile, and home otherwise; after [navigateTo("orders")] and
    then [navigateTo("bogus")] the screen is home. *)
Theorem navigateTo_renders_one_screen (view : string) (st : State) :
  main_children (navigateTo view st) = [screen_for view] /\
  (forall screen, (view, screen) ∈ view_table ->
     renderView (navigateTo view st) = screen) /\
  (view ∉ map fst view_table -> renderView (navigateTo view st) = Component.Home) /\
  renderView (navigateTo "bogus" (navigateTo "orders" st)) = Component.Home /\
  renderView (navigateTo "orders" st) = Component.Orders.
Proof.
  split; [| split; [| split; [| split; reflexivity]]].
  - unfold main_children. by rewrite renderView_screen_for.
  - intros screen Hin. rewrite renderView_screen_for. cbn [navigateTo setCurrentView currentView].
    unfold view_table in Hin.
    repeat (apply elem_of_cons in Hin as [[= -> ->] | Hin]; [reflexivity |]).
    by apply elem_of_nil in Hin.
  - intros Hnotin. rewrite renderView_screen_for. cbn [navigateTo setCurrentView currentView].
    unfold screen_for, view_table. cbn [lookup_view].
    cbn [map fst view_table] in Hnotin.
    repeat (apply not_elem_of_cons in Hnotin as [Hne Hnotin];
            apply String.eqb_neq in Hne; rewrite Hne; clear Hne).
    reflexivity.
Qed.

Lemma navigateTo_renders_one_screen_witness :
  renderView (navigateTo "cart" fresh) = Component.Cart /\
  renderView (navigateTo "categories" fresh) = Component.Home.
Proof.
  split.
  - apply (proj1 (proj2 (navigateTo_renders_one_screen "cart" fresh))).
    unfold view_table. do 2 (apply elem_of_cons; right). apply elem_of_cons. by left.
  - apply (proj1 (proj2 (proj2 (navigateTo_renders_one_screen "categories" fresh)))).
    cbn [map fst view_table].
    repeat (apply not_elem_of_cons; split; [discriminate |]). apply not_elem_of_nil.
Defined.

(** ** Signing out *)

(** C10: [logout] removes the persisted session token and sets [user] to
    null, and nothing else: the line items, the item count, the total, the
    view, and every other key of the store, [cart] among them, are as
    before. *)
Theorem logout_frame (st : State) :
  cart (logout st) = cart st /\
  cartCount (logout st) = cartCount st /\
  getTotal (logout st) = getTotal st /\
  localStorage (logout st) !! "cart" = localStorage st !! "cart" /\
  (forall key, key <> "session_token"%string ->
     localStorage (logout st) !! key = localStorage st !! key) /\
  localStorage (logout st) !! "session_token" = None /\
  user (logout st) = JNull /\
  loading (logout st) = loading st /\
  currentView (logout st) = currentView st.
Proof.
  unfold logout. cbn. repeat split.
  - by apply lookup_delete_ne.
  - intros key Hkey. by apply lookup_delete_ne.
  - apply lookup_delete_eq.
Qed.

(** ** The cart handlers, one against the other *)

Lemma commit_cart_commit c c' st : commit_cart c (commit_cart c' st) = commit_cart c st.
Proof.
  unfold commit_cart, localStorage_setItem, setCartCount, setCart. cbn.
  f_equal. apply insert_insert_eq.
Qed.

Lemma cart_commit_cart c st : cart (commit_cart c st) = c.
Proof. reflexivity. Qed.

Lemma filter_other_ids pid c :
  pid ∉ product_ids c ->
  List.filter (fun item => negb (String.eqb (Product.id (product item)) pid)) c = c.
Proof.
  induction c as [| item c IH]; [done |]. cbn.
  intros [Hne Hnotin]%not_elem_of_cons.
  destruct (String.eqb_spec (Product.id (product item)) pid) as [Heq | _];
    [congruence |].
  cbn. by rewrite IH.
Qed.

Lemma map_id_other_ids pid f c : pid ∉ product_ids c -> map_id pid f c = c.
Proof.
  unfold map_id. induction c as [| item c IH]; [done |]. cbn.
  intros [Hne Hnotin]%not_elem_of_cons.
  destruct (String.eqb_spec (Product.id (product item)) pid) as [Heq | _];
    [congruence |].
  by rewrite IH.
Qed.





Lemma total_quantity_cons x c :
  total_quantity (x :: c) = quantity x + total_quantity c.
Proof. reflexivity. Qed.




(** X1: [removeFromCart] of an id the cart does not hold leaves the line
    items and their count as they are -- and still writes the cart to the
    store, also where nothing was stored before. *)
Theorem removeFromCart_absent pid st :
  pid ∉ product_ids (cart st) ->
  cart (removeFromCart pid st) = cart st /\
  cartCount (removeFromCart pid st) = total_quantity (cart st) /\
  localStorage (removeFromCart pid st) !! "cart" =
    Some (JSON_stringify (json_of_cart (cart st))).
Proof.
  intros Hnotin. unfold removeFromCart. rewrite filter_other_ids by done.
  split; [reflexivity |]. split; [apply sum_quantity_total |].
  cbn. apply lookup_insert_eq.
Qed.

Lemma removeFromCart_absent_witness :
  cart (removeFromCart "p1" (clearCart fresh)) = [] /\
  cartCount (removeFromCart "p1" (clearCart fresh)) = 0 /\
  localStorage (removeFromCart "p1" (clearCart fresh)) !! "cart" =
    Some (JSON_stringify (json_of_cart [])).
Proof. apply (removeFromCart_absent "p1" (clearCart fresh)). apply not_elem_of_nil. Defined.






Lemma cartCount_updateQuantity pid qty st :
  cartCount (updateQuantity pid qty st) = total_quantity (cart (updateQuantity pid qty st)).
Proof.
  unfold updateQuantity. destruct (qty <=? 0); cbn; apply sum_quantity_total.
Qed.

Lemma addToCart_new p qty st :
  Product.id p ∉ product_ids (cart st) ->
  cart (addToCart p (Some qty) st) = cart st ++ [LineItem p qty].
Proof.
  intros Hnotin. unfold addToCart; cbn [from_option id].
  destruct (find _ (cart st)) as [existing |] eqn:Hfind; [| reflexivity].
  by apply find_same_id_Some in Hfind.
Qed.



Lemma addToCart_commit p qty st :
  addToCart p (Some qty) st = commit_cart (added p qty (cart st)) st.
Proof. reflexivity. Qed.

Lemma added_new p qty c :
  Product.id p ∉ product_ids c -> added p qty c = c ++ [LineItem p qty].
Proof.
  intros Hnotin. unfold added.
  destruct (find _ c) as [existing |] eqn:Hfind; [| reflexivity].
  by apply find_same_id_Some in Hfind.
Qed.

Lemma added_found p qty c :
  Product.id p ∈ product_ids c ->
  added p qty c = map_id (Product.id p) (fun x => LineItem (product x) (quantity x + qty)) c.
Proof.
  intros Hin. unfold added.
  destruct (product_ids_find _ _ Hin) as [existing Hfind]. by rewrite Hfind.
Qed.

Lemma product_ids_map_id pid f c :
  (forall item, product (f item) = product item) ->
  product_ids (map_id pid f c) = product_ids c.
Proof.
  intros Hf. apply product_ids_map_quantity.
  intros item. destruct (String.eqb _ _); [apply Hf | done].
Qed.

Lemma map_id_map_id pid f g c :
  (forall item, product (f item) = product item) ->
  map_id pid g (map_id pid f c) = map_id pid (fun item => g (f item)) c.
Proof.
  intros Hf. unfold map_id. rewrite map_map. apply map_ext. intros item.
  destruct (String.eqb_spec (Product.id (product item)) pid) as [Heq | Hne].
  - by rewrite Hf, Heq, String.eqb_refl.
  - by apply String.eqb_neq in Hne as ->.
Qed.




Lemma cart_removeFromCart pid st :
  cart (removeFromCart pid st) =
  List.filter (fun item => negb (String.eqb (Product.id (product item)) pid)) (cart st).
Proof. reflexivity. Qed.

Lemma cartCount_removeFromCart pid st :
  cartCount (removeFromCart pid st) = total_quantity (cart (removeFromCart pid st)).
Proof. cbn. apply sum_quantity_total. Qed.

Lemma cart_updateQuantity_positive pid qty st :
  0 < qty ->
  cart (updateQuantity pid qty st) =
  map_id pid (fun item => LineItem (product item) qty) (cart st).
Proof. intros Hq. unfold updateQuantity. by destruct (Z.leb_spec qty 0); [lia |]. Qed.

Lemma updateQuantity_commit pid qty st :
  0 < qty ->
  updateQuantity pid qty st =
  commit_cart (map_id pid (fun item => LineItem (product item) qty) (cart st)) st.
Proof. intros Hq. unfold updateQuantity. by destruct (Z.leb_spec qty 0); [lia |]. Qed.

Lemma removeFromCart_commit pid st :
  removeFromCart pid st =
  commit_cart
    (List.filter (fun item => negb (String.eqb (Product.id (product item)) pid)) (cart st)) st.
Proof. reflexivity. Qed.

(** X5: adding a product the cart does not hold and then removing it gives
    the line items back as they were, with their count. *)
Theorem addToCart_removeFromCart p qty st :
  Product.id p ∉ product_ids (cart st) ->
  cart (removeFromCart (Product.id p) (addToCart p qty st)) = cart st /\
  cartCount (removeFromCart (Product.id p) (addToCart p qty st)) = total_quantity (cart st).
Proof.
  intros Hnotin.
  assert (cart (removeFromCart (Product.id p) (addToCart p qty st)) = cart st) as Hcart.
  { rewrite cart_removeFromCart.
    replace (addToCart p qty st) with (addToCart p (Some (default 1 qty)) st)
      by (by destruct qty).
    rewrite addToCart_new by done. rewrite List.filter_app.
    rewrite filter_other_ids by done. cbn. rewrite String.eqb_refl. cbn.
    apply app_nil_r. }
  split; [exact Hcart |]. by rewrite cartCount_removeFromCart, Hcart.
Qed.

Lemma addToCart_removeFromCart_witness :
  cart (removeFromCart "p1" (addToCart mug None fresh)) = [] /\
  cartCount (removeFromCart "p1" (addToCart mug None fresh)) = 0.
Proof. apply (addToCart_removeFromCart mug None fresh). apply not_elem_of_nil. Defined.

(** X6: [updateQuantity] for an id the cart does not hold changes no line
    item, whatever the quantity: it never adds one. *)
Theorem updateQuantity_absent pid qty st :
  pid ∉ product_ids (cart st) ->
  cart (updateQuantity pid qty st) = cart st /\
  cartCount (updateQuantity pid qty st) = total_quantity (cart st).
Proof.
  intros Hnotin.
  assert (cart (updateQuantity pid qty st) = cart st) as Hcart.
  { unfold updateQuantity. destruct (qty <=? 0).
    - rewrite cart_removeFromCart. by apply filter_other_ids.
    - cbn [commit_cart cart setCart setCartCount localStorage_setItem].
      by apply (map_id_other_ids pid (fun item => LineItem (product item) qty)). }
  split; [exact Hcart |]. by rewrite cartCount_updateQuantity, Hcart.
Qed.

Lemma updateQuantity_absent_witness :
  cart (updateQuantity "p9" 3 two_items) = cart two_items /\
  cartCount (updateQuantity "p9" 3 two_items) = total_quantity (cart two_items).
Proof.
  apply (updateQuantity_absent "p9" 3 two_items).
  repeat (apply not_elem_of_cons; split; [discriminate |]). apply not_elem_of_nil.
Defined.

Lemma filter_map_id pid f c :
  (forall item, product (f item) = product item) ->
  List.filter (fun item => negb (String.eqb (Product.id (product item)) pid)) (map_id pid f c)
  = List.filter (fun item => negb (String.eqb (Product.id (product item)) pid)) c.
Proof.
  intros Hf. unfold map_id. induction c as [| x c IH]; [done |]. cbn.
  destruct (String.eqb_spec (Product.id (product x)) pid) as [Heq | Hne].
  - rewrite Hf, Heq, String.eqb_refl. cbn. exact IH.
  - apply String.eqb_neq in Hne. rewrite Hne. cbn. by rewrite IH.
Qed.

(** X7: of two [updateQuantity] calls for one id, the first with a quantity
    above zero, only the second counts: the state is the one the second call
    alone leaves. *)
Theorem updateQuantity_last_wins pid q1 q2 st :
  0 < q1 ->
  updateQuantity pid q2 (updateQuantity pid q1 st) = updateQuantity pid q2 st.
Proof.
  intros Hq1. rewrite (updateQuantity_commit pid q1 st Hq1).
  destruct (Z.leb_spec q2 0) as [Hle | Hgt].
  - unfold updateQuantity. destruct (Z.leb_spec q2 0); [| lia].
    rewrite !removeFromCart_commit, cart_commit_cart, filter_map_id by done.
    apply commit_cart_commit.
  - rewrite !updateQuantity_commit, cart_commit_cart, map_id_map_id by done.
    apply commit_cart_commit.
Qed.

Lemma updateQuantity_last_wins_witness :
  updateQuantity "p1" 0 (updateQuantity "p1" 9 two_items) = updateQuantity "p1" 0 two_items.
Proof. apply updateQuantity_last_wins. lia. Defined.

(** X8: [clearCart] leaves no line item, a count of 0, a total of zero and
    no [cart] key in the store, and leaves the session alone; reloading
    after it starts with the empty cart. *)
Theorem clearCart_empties st api :
  cart (clearCart st) = [] /\
  cartCount (clearCart st) = 0 /\
  getTotal (clearCart st) = number_zero /\
  localStorage (clearCart st) !! "cart" = None /\
  (forall key, key <> "cart"%string ->
     localStorage (clearCart st) !! key = localStorage st !! key) /\
  user (clearCart st) = user st /\
  exists st',
    mount api (localStorage (clearCart st)) = Done st' /\
    cart st' = [] /\ cartCount st' = 0.
Proof.
  repeat split.
  - apply lookup_delete_eq.
  - intros key Hkey. cbn. by apply lookup_delete_ne.
  - destruct (mount_persisted api (clearCart st) (clearCart_invariant st))
      as (st' & Hmount & Hcart & Hcount & _).
    by exists st'.
Qed.

(** X9: the handlers keep the line items in order: [addToCart] leaves the
    sequence of ids as it is or appends the new id at the end,
    [updateQuantity] with a quantity above zero leaves it as it is, and
    [removeFromCart] takes out the id and keeps the rest in sequence. *)
Theorem product_ids_order p added_qty pid qty st :
  product_ids (cart (addToCart p added_qty st)) =
    (if decide (Product.id p ∈ product_ids (cart st))
     then product_ids (cart st)
     else product_ids (cart st) ++ [Product.id p]) /\
  (0 < qty ->
   product_ids (cart (updateQuantity pid qty st)) = product_ids (cart st)) /\
  product_ids (cart (removeFromCart pid st)) =
    filter (fun i => i <> pid) (product_ids (cart st)).
Proof.
  split; [| split].
  - replace (addToCart p added_qty st) with (addToCart p (Some (default 1 added_qty)) st)
      by (by destruct added_qty).
    rewrite addToCart_commit, cart_commit_cart.
    destruct (decide (Product.id p ∈ product_ids (cart st))) as [Hin | Hnotin].
    + rewrite added_found by done. by apply product_ids_map_id.
    + rewrite added_new by done. apply product_ids_app.
  - intros Hq. rewrite cart_updateQuantity_positive by done.
    by apply product_ids_map_id.
  - rewrite cart_removeFromCart. induction (cart st) as [| x c IH]; [done |].
    change (product_ids (x :: c)) with (Product.id (product x) :: product_ids c).
    cbn [List.filter].
    destruct (String.eqb_spec (Product.id (product x)) pid) as [Heq | Hne]; cbn [negb].
    + rewrite filter_cons_False by (intros Hx; by apply Hx). exact IH.
    + rewrite filter_cons_True by done.
      change (product_ids (x :: ?l)) with (Product.id (product x) :: product_ids l).
      cbn [product_ids map]. f_equal. exact IH.
Qed.

Lemma product_ids_order_witness :
  product_ids (cart (updateQuantity "p1" 7 two_items)) = product_ids (cart two_items).
Proof.
  refine (proj1 (proj2 (product_ids_order mug None "p1" 7 two_items)) _). lia.
Defined.




(** ** The buttons of the cart screen *)



Lemma NoDup_two_items : NoDup (product_ids (cart two_items)).
Proof.
  apply NoDup_cons. split; [| apply NoDup_singleton].
  apply not_elem_of_cons. split; [discriminate | apply not_elem_of_nil].
Qed.




(** ** Checkout *)

Lemma order_quantity_sum_map c :
  order_quantity_sum
    (map (fun item =>
            OrderItem.Make (Product.id (product item)) (Product.name (product item))
                           (quantity item) (Product.price (product item))) c)
  = total_quantity c.
Proof.
  induction c as [| item c IH]; [done |].
  rewrite total_quantity_cons, <- IH. reflexivity.
Qed.

(** X13: when [handleCheckout] posts an order -- which it does only for a
    signed-in user -- from a cart of distinct ids whose count is in step, the
    order lists the line items one for one and in order, names every product
    once, has quantities adding up to the count the header shows, carries
    [getTotal()] as its total, and is empty exactly when the screen shows the
    empty-cart message instead of the checkout button. *)
Theorem handleCheckout_order st request :
  NoDup (product_ids (cart st)) -> cartCount st = total_quantity (cart st) ->
  handleCheckout_start st = CheckoutPost request ->
  let order := order_data request in
  truthy (user st) = true /\
  (forall i item,
     cart st !! i = Some item ->
     OrderData.items order !! i =
     Some (OrderItem.Make (Product.id (product item)) (Product.name (product item))
                          (quantity item) (Product.price (product item)))) /\
  length (OrderData.items order) = length (cart st) /\
  NoDup (map OrderItem.product_id (OrderData.items order)) /\
  order_quantity_sum (OrderData.items order) = cartCount st /\
  OrderData.total order = getTotal st /\
  OrderData.payment_method order = "pending"%string /\
  order_session_id request = localStorage st !! "session_token" /\
  (OrderData.items order = [] <-> Cart_render st = EmptyCartMessage).
Proof.
  intros Hnodup Hcount Hstart order. unfold handleCheckout_start in Hstart.
  destruct (truthy (user st)); cbn [negb] in Hstart; [| discriminate].
  injection Hstart as <-. subst order. cbn [order_data OrderData.items OrderData.total
    OrderData.payment_method order_session_id].
  split; [reflexivity |]. split; [| split; [| split; [| split; [| split; [| split; [| split]]]]]].
  - intros i item Hi. rewrite list_lookup_fmap. by rewrite Hi.
  - apply length_map.
  - rewrite map_map. exact Hnodup.
  - by rewrite order_quantity_sum_map.
  - reflexivity.
  - reflexivity.
  - reflexivity.
  - unfold Cart_render. destruct (cart st); cbn; split; done.
Qed.

Lemma handleCheckout_order_witness :
  exists request,
    handleCheckout_start signed_in_two_items = CheckoutPost request /\
    order_quantity_sum (OrderData.items (order_data request)) = 5 /\
    order_session_id request = Some "t0"%string.
Proof.
  eexists. split; [reflexivity |].
  pose proof (handleCheckout_order signed_in_two_items _ NoDup_two_items eq_refl eq_refl)
    as (_ & _ & _ & _ & Hsum & _ & _ & Hid & _).
  split; [exact Hsum |]. rewrite Hid. reflexivity.
Defined.

(** X14: the order holds the line items of the moment of the click, [st];
    the answer arrives in a state [st'] that may hold another cart.  When the
    order is fulfilled the cart of [st'] is emptied, count and stored cart
    with it, the session token kept; when it is rejected [st'] is left as it
    is.  So what was added while the request was pending is not ordered, and
    is dropped with the rest when the order goes through. *)
Theorem handleCheckout_settles st request st' response :
  handleCheckout_start st = CheckoutPost request ->
  map OrderItem.product_id (OrderData.items (order_data request)) = product_ids (cart st) /\
  match response with
  | Fulfilled _ =>
      cart (fst (handleCheckout_settle response st')) = [] /\
      cartCount (fst (handleCheckout_settle response st')) = 0 /\
      localStorage (fst (handleCheckout_settle response st')) !! "cart" = None /\
      localStorage (fst (handleCheckout_settle response st')) !! "session_token" =
        localStorage st' !! "session_token"
  | Rejected _ => fst (handleCheckout_settle response st') = st'
  end.
Proof.
  intros Hstart. split.
  - unfold handleCheckout_start in Hstart.
    destruct (negb (truthy (user st))); [discriminate |].
    injection Hstart as <-. cbn. by rewrite map_map.
  - destruct response as [data | error]; cbn; [| reflexivity].
    repeat split; [apply lookup_delete_eq | by apply lookup_delete_ne].
Qed.

Lemma handleCheckout_settles_witness :
  exists request,
    handleCheckout_start signed_in_two_items = CheckoutPost request /\
    map OrderItem.product_id (OrderData.items (order_data request)) = ["p2"; "p1"]%string /\
    cart (fst (handleCheckout_settle (Fulfilled JNull)
                 (addToCart (Product.Make "p3" "Pot" "A pot" (Dec 12 0) "Home" 1 []) None
                            signed_in_two_items))) = [].
Proof.
  eexists. split; [reflexivity |].
  pose proof (handleCheckout_settles signed_in_two_items _
                (addToCart (Product.Make "p3" "Pot" "A pot" (Dec 12 0) "Home" 1 []) None
                           signed_in_two_items)
                (Fulfilled JNull) eq_refl) as [Hids (Hcart & _)].
  split; [exact Hids | exact Hcart].
Defined.

(** ** Sessions: who is signed in, and what is on screen *)

Lemma hydrate_cart_frame st st' :
  hydrate_cart st = Done st' ->
  user st' = user st /\ loading st' = loading st /\
  currentView st' = currentView st /\ localStorage st' = localStorage st.
Proof.
  unfold hydrate_cart.
  destruct (localStorage_getItem "cart" st) as [savedCart |]; [| by intros [= <-]].
  destruct (truthy_string savedCart); [| by intros [= <-]].
  destruct (JSON_parse savedCart) as [parsed |]; [| done].
  destruct (cart_of_json parsed) as [parsedCart |]; [| done].
  by intros [= <-].
Qed.

Lemma auth_startup_frame api st :
  cart (auth_startup api st) = cart st /\
  cartCount (auth_startup api st) = cartCount st /\
  currentView (auth_startup api st) = currentView st.
Proof.
  unfold auth_startup, fetchProfile.
  destruct (localStorage_getItem "session_token" st) as [token |]; [| done].
  destruct (truthy_string token); [| done]. by destruct (api token).
Qed.

Lemma auth_startup_signed_in api st :
  user st = JNull -> signed_in_with_token (auth_startup api st).
Proof.
  intros Huser. unfold signed_in_with_token, auth_startup, fetchProfile, localStorage_getItem.
  destruct (localStorage st !! "session_token") as [token |] eqn:Htoken;
    [| cbn; by rewrite Huser].
  destruct token as [| c token]; cbn [truthy_string]; [cbn; by rewrite Huser |].
  destruct (api (String c token)) as [data | error]; cbn.
  - intros _. by exists (String c token).
  - by rewrite Huser.
Qed.

Lemma mount_signed_in api storage st :
  mount api storage = Done st -> signed_in_with_token st.
Proof.
  unfold mount. destruct (hydrate_cart (initial_state storage)) as [st1 | |] eqn:Hhydrate;
    [| done | done].
  intros [= <-]. apply auth_startup_signed_in.
  by destruct (hydrate_cart_frame _ _ Hhydrate) as (-> & _).
Qed.

Lemma signed_in_same_session st st' :
  user st' = user st ->
  localStorage st' !! "session_token" = localStorage st !! "session_token" ->
  signed_in_with_token st -> signed_in_with_token st'.
Proof. unfold signed_in_with_token. by intros -> ->. Qed.

Lemma commit_cart_session c st :
  user (commit_cart c st) = user st /\
  localStorage (commit_cart c st) !! "session_token" = localStorage st !! "session_token".
Proof. split; [reflexivity |]. cbn. by apply lookup_insert_ne. Qed.

Lemma handle_signed_in e st st' :
  signed_in_with_token st -> handle e st = Done st' -> signed_in_with_token st'.
Proof.
  intros Hst. destruct e as [p qty | pid | pid qty | | | view | api]; cbn [handle];
    try (intros [= <-]).
  - apply (signed_in_same_session st); [..| exact Hst]; apply commit_cart_session.
  - apply (signed_in_same_session st); [..| exact Hst]; apply commit_cart_session.
  - unfold updateQuantity. destruct (qty <=? 0);
      (apply (signed_in_same_session st); [..| exact Hst]; apply commit_cart_session).
  - apply (signed_in_same_session st); [reflexivity | | exact Hst].
    cbn. by apply lookup_delete_ne.
  - intros Htruthy. discriminate Htruthy.
  - exact Hst.
  - apply mount_signed_in.
Qed.

Lemma run_signed_in events : forall st st',
  signed_in_with_token st -> run events st = Done st' -> signed_in_with_token st'.
Proof.
  induction events as [| e events IH]; intros st st' Hst; cbn [run].
  - by intros [= <-].
  - destruct (handle e st) as [st1 | |] eqn:Hhandle; [| done | done].
    apply IH. by eapply handle_signed_in.
Qed.

(** X15: in every session, from mounting over whatever is stored on,
    somebody is shown as signed in only while a non-empty session token is
    stored -- so an order is never posted without one. *)
Theorem signed_in_has_token api storage st0 events st :
  mount api storage = Done st0 -> run events st0 = Done st ->
  (truthy (user st) = true ->
   exists token, localStorage st !! "session_token" = Some token /\ token <> EmptyString) /\
  (forall request,
     handleCheckout_start st = CheckoutPost request ->
     exists token, order_session_id request = Some token /\ token <> EmptyString).
Proof.
  intros Hmount Hrun.
  assert (signed_in_with_token st) as Hst
    by (eapply run_signed_in; [by eapply mount_signed_in | exact Hrun]).
  split; [exact Hst |].
  intros request Hstart. unfold handleCheckout_start in Hstart.
  destruct (truthy (user st)) eqn:Htruthy; cbn [negb] in Hstart; [| discriminate].
  injection Hstart as <-. cbn [order_session_id]. by apply Hst.
Qed.

Lemma signed_in_has_token_witness :
  let api := fun _ : string => Fulfilled ada in
  let storage : gmap string string := <["session_token" := "t0"]> ∅ in
  let st := addToCart mug None (auth_startup api (initial_state storage)) in
  (truthy (user st) = true ->
   exists token, localStorage st !! "session_token" = Some token /\ token <> EmptyString) /\
  (forall request,
     handleCheckout_start st = CheckoutPost request ->
     exists token, order_session_id request = Some token /\ token <> EmptyString).
Proof.
  exact (signed_in_has_token (fun _ => Fulfilled ada) (<["session_token" := "t0"]> ∅)
           _ [EAddToCart mug None] _ eq_refl eq_refl).
Defined.






Lemma mount_home api storage st :
  mount api storage = Done st -> currentView st = "home"%string.
Proof.
  unfold mount. destruct (hydrate_cart (initial_state storage)) as [st1 | |] eqn:Hhydrate;
    [| done | done].
  intros [= <-]. destruct (auth_startup_frame api st1) as (_ & _ & ->).
  by destruct (hydrate_cart_frame _ _ Hhydrate) as (_ & _ & -> & _).
Qed.

Lemma run_home events : forall st st',
  Forall (fun e => ~ navigates e) events ->
  currentView st = "home"%string -> run events st = Done st' ->
  currentView st' = "home"%string.
Proof.
  induction events as [| e events IH]; intros st st' Hall Hhome; cbn [run].
  - by intros [= <-].
  - apply Forall_cons in Hall as [He Hall].
    destruct (handle e st) as [st1 | |] eqn:Hhandle; [| done | done].
    apply IH; [exact Hall |].
    destruct e as [p qty | pid | pid qty | | | view | api]; cbn [handle] in Hhandle;
      try (injection Hhandle as <-).
    + exact Hhome.
    + exact Hhome.
    + unfold updateQuantity. by destruct (qty <=? 0).
    + exact Hhome.
    + exact Hhome.
    + by destruct He.
    + by eapply mount_home.
Qed.

(** X17: the buttons of the header set the header's own view and nothing of
    the application, and in a session without a call of [window.navigateTo]
    -- the source has none -- the screen rendered is the home screen
    throughout, whatever the header highlights. *)
Theorem home_without_navigateTo events st view pg :
  Forall (fun e => ~ navigates e) events -> run events fresh = Done st ->
  renderView st = Component.Home /\
  main_children st = [Component.Home] /\
  page_app (Header_setCurrentView view pg) = page_app pg /\
  header_currentView (Header_setCurrentView view pg) = view /\
  renderView (page_app (Header_setCurrentView "cart" (MkPage st "home"))) = Component.Home.
Proof.
  intros Hall Hrun.
  assert (currentView st = "home"%string) as Hhome
    by (by eapply (run_home events fresh st)).
  assert (renderView st = Component.Home) as Hrender
    by (unfold renderView; by rewrite Hhome).
  repeat split; try exact Hrender. unfold main_children. by rewrite Hrender.
Qed.

Lemma home_without_navigateTo_witness :
  renderView (logout two_items) = Component.Home /\
  main_children (logout two_items) = [Component.Home].
Proof.
  pose proof (home_without_navigateTo
    [EAddToCart (Product.Make "p2" "Cup" "A cup" (Dec 5 0) "Home" 3 []) (Some 1);
     EAddToCart mug_repriced (Some 4); ELogout] (logout two_items) "cart"
    (MkPage fresh "home")) as Hhome.
  destruct Hhome as (Hrender & Hmain & _); [| reflexivity | by split].
  repeat (apply Forall_cons; split; [intros [] |]). apply Forall_nil_2.
Defined.

(** ** Product card *)

Lemma ProductCard_clicks p st n :
  ProductCard_disabled p = false -> Product.id p ∉ product_ids (cart st) ->
  cart (Nat.iter (S n) (ProductCard_click p) st) = cart st ++ [LineItem p (Z.of_nat (S n))].
Proof.
  intros Henabled Hnotin. induction n as [| n IH].
  - rewrite Nat.iter_succ. change (Nat.iter 0 (ProductCard_click p) st) with st.
    unfold ProductCard_click. rewrite Henabled.
    change (addToCart p None st) with (addToCart p (Some 1) st).
    by rewrite addToCart_new.
  - rewrite Nat.iter_succ.
    unfold ProductCard_click at 1. rewrite Henabled.
    change (addToCart p None ?s) with (addToCart p (Some 1) s).
    rewrite addToCart_commit, cart_commit_cart, IH.
    rewrite added_found
      by (rewrite product_ids_app; apply elem_of_app; right; apply elem_of_cons; by left).
    unfold map_id. rewrite map_app.
    fold (map_id (Product.id p) (fun x => LineItem (product x) (quantity x + 1)) (cart st)).
    rewrite map_id_other_ids by done. cbn [map product quantity].
    rewrite String.eqb_refl. do 3 f_equal. lia.
Qed.

(** X18: a click on an enabled product card adds one, with no regard to the
    inventory: [n] clicks on a product the cart did not hold leave one line
    item of quantity [n], so a quantity above the inventory is reached; a
    disabled card, of inventory 0, changes nothing. *)
Theorem ProductCard_click_ignores_inventory p st :
  Product.id p ∉ product_ids (cart st) ->
  (ProductCard_disabled p = true -> ProductCard_click p st = st) /\
  (ProductCard_disabled p = false ->
   (forall n, cart (Nat.iter (S n) (ProductCard_click p) st) =
              cart st ++ [LineItem p (Z.of_nat (S n))]) /\
   exists n item,
     item ∈ cart (Nat.iter n (ProductCard_click p) st) /\
     product item = p /\ Product.inventory p < quantity item).
Proof.
  intros Hnotin. split.
  - intros Hdisabled. unfold ProductCard_click. by rewrite Hdisabled.
  - intros Henabled. split; [intros n; by apply ProductCard_clicks |].
    exists (S (Z.to_nat (Product.inventory p))),
           (LineItem p (Z.of_nat (S (Z.to_nat (Product.inventory p))))).
    rewrite ProductCard_clicks by done. split; [| split; [reflexivity |]].
    + apply elem_of_app. right. apply elem_of_cons. by left.
    + cbn [quantity]. lia.
Qed.

Lemma ProductCard_click_ignores_inventory_witness :
  cart (Nat.iter 12 (ProductCard_click mug) fresh) = [LineItem mug 12] /\
  Product.inventory mug = 10.
Proof.
  split; [| reflexivity].
  refine (proj1 (proj2 (ProductCard_click_ignores_inventory mug fresh _) eq_refl) 11%nat).
  apply not_elem_of_nil.
Defined.

(** ** The return from the login page *)

Lemma strip_prefix_Some p : forall s r, strip_prefix p s = Some r -> s = p ++ r.
Proof.
  induction p as [| a p IH]; intros s r; cbn; [by intros [= ->] |].
  destruct s as [| c s]; [done |]. unfold is_char.
  destruct (Ascii.eqb_spec a c) as [-> | _]; [| done].
  intros Hs. by rewrite (IH _ _ Hs).
Qed.

Lemma strip_prefix_app p r : strip_prefix p (p ++ r) = Some r.
Proof.
  induction p as [| a p IH]; [done |]. cbn. unfold is_char.
  by rewrite Ascii.eqb_refl.
Qed.

Lemma find_first_Some sep : forall s before after,
  sep <> [] -> find_first sep s = Some (before, after) ->
  s = before ++ sep ++ after /\ find_first sep before = None.
Proof.
  intros s before after Hsep. revert before after.
  assert (find_first sep [] = None) as Hnil by (by destruct sep).
  induction s as [| c s IH]; intros before after; cbn [find_first].
  - destruct (strip_prefix sep []) as [rest |] eqn:Hstrip; [| done].
    intros [= <- <-]. split; [| exact Hnil]. by apply strip_prefix_Some in Hstrip.
  - destruct (strip_prefix sep (c :: s)) as [rest |] eqn:Hstrip.
    + intros [= <- <-]. split; [| exact Hnil]. by apply strip_prefix_Some in Hstrip.
    + destruct (find_first sep s) as [[b a] |] eqn:Hfind; [| done].
      intros [= <- <-]. destruct (IH b a eq_refl) as [Hs Hb].
      split; [by rewrite Hs |]. cbn [find_first]. rewrite Hb.
      destruct (strip_prefix sep (c :: b)) as [x |] eqn:Hcb; [| done].
      apply strip_prefix_Some in Hcb.
      rewrite Hs, app_comm_cons, Hcb, <- app_assoc, strip_prefix_app in Hstrip.
      discriminate Hstrip.
Qed.

Lemma list_ascii_of_string_app s1 s2 :
  list_ascii_of_string (s1 ++ s2) =
  list_ascii_of_string s1 ++ list_ascii_of_string s2.
Proof.
  induction s1 as [| c s1 IH]; [done |].
  change (list_ascii_of_string (String c s1 ++ s2))
    with (c :: list_ascii_of_string (s1 ++ s2)).
  by rewrite IH.
Qed.

Lemma length_list_ascii_of_string s :
  length (list_ascii_of_string s) = String.length s.
Proof. induction s as [| c s IH]; [done |]. cbn. by rewrite IH. Qed.

Lemma find_first_here sep r : find_first sep (sep ++ r) = Some ([], r).
Proof.
  assert (forall s, strip_prefix sep s = Some r -> find_first sep s = Some ([], r)) as H.
  { intros s Hs. destruct s; cbn [find_first]; by rewrite Hs. }
  apply H, strip_prefix_app.
Qed.

Lemma String_includes_false s sep :
  String_includes s sep = false ->
  find_first (list_ascii_of_string sep) (list_ascii_of_string s) = None.
Proof. unfold String_includes. by destruct (find_first _ _). Qed.

(** X19: the effect of the profile screen calls [handleAuthCallback] exactly
    when the fragment contains [session_id=]; on a fragment [#session_id=v]
    whose [v] does not contain that marker again, the session id it passes is
    the whole of [v], other fragment parameters after an [&] included; and
    whenever it calls, the id is defined and does not contain the marker. *)
Theorem Profile_callback_session_id :
  (forall hash, String_includes hash "session_id=" = false -> Profile_callback hash = None) /\
  (forall v, String_includes v "session_id=" = false ->
             Profile_callback ("#session_id=" ++ v) = Some (Some v)) /\
  (forall hash sid, Profile_callback hash = Some sid ->
     exists v, sid = Some v /\ String_includes v "session_id=" = false).
Proof.
  split; [| split].
  - intros hash Hnone. unfold Profile_callback. rewrite Hnone. by destruct (truthy_string hash).
  - intros v Hv. apply String_includes_false in Hv.
    unfold Profile_callback, String_includes, String_split.
    cbn [truthy_string append andb]. rewrite list_ascii_of_string_app.
    set (marker := list_ascii_of_string "session_id=") in *.
    assert (find_first marker (list_ascii_of_string "#" ++ marker ++ list_ascii_of_string v)
            = Some (list_ascii_of_string "#", list_ascii_of_string v)) as Hfind.
    { cbn [list_ascii_of_string app]. cbn [find_first].
      change (strip_prefix marker ("#"%char :: marker ++ list_ascii_of_string v)) with (@None (list ascii)).
      cbv iota. by rewrite find_first_here. }
    change (list_ascii_of_string "#session_id=")
      with (list_ascii_of_string "#" ++ marker).
    rewrite <- app_assoc, Hfind.
    change (String.length ("#session_id=" ++ v))
      with (S (S (String.length (String.append "ession_id=" v)))).
    cbn [split_fuel]. rewrite Hfind. cbn [split_fuel]. rewrite Hv.
    cbn. by rewrite string_of_list_ascii_of_string.
  - intros hash sid. unfold Profile_callback, String_includes, String_split.
    destruct (truthy_string hash); cbn [andb]; [| done].
    set (marker := list_ascii_of_string "session_id=") in *.
    destruct (find_first marker (list_ascii_of_string hash)) as [[b a] |] eqn:Hfind;
      [| done].
    intros [= <-].
    destruct (find_first_Some marker _ b a ltac:(done) Hfind) as [Hhash _].
    assert (2 <= String.length hash)%nat as Hlen.
    { rewrite <- length_list_ascii_of_string, Hhash, !length_app. cbn. lia. }
    destruct (String.length hash) as [| [| n]]; [lia | lia |].
    cbn [split_fuel]. rewrite Hfind. cbn [split_fuel].
    destruct (find_first marker a) as [[b' a'] |] eqn:Hnext.
    + exists (string_of_list_ascii b'). split; [reflexivity |].
      destruct (find_first_Some marker _ b' a' ltac:(done) Hnext) as [_ Hfree].
      rewrite list_ascii_of_string_of_list_ascii. fold marker. by rewrite Hfree.
    + exists (string_of_list_ascii a). split; [reflexivity |].
      rewrite list_ascii_of_string_of_list_ascii. fold marker. by rewrite Hnext.
Qed.

Lemma Profile_callback_session_id_witness :
  Profile_callback "#session_id=abc&next=cart" = Some (Some "abc&next=cart"%string) /\
  Profile_callback "#profile" = None.
Proof.
  destruct Profile_callback_session_id as (Hnone & Hwhole & _).
  split; [exact (Hwhole "abc&next=cart"%string eq_refl) | exact (Hnone "#profile"%string eq_refl)].
Defined.

Lemma mount_reload api st storage :
  cartCount st = sum_quantity (cart st) -> cart_persisted st ->
  storage !! "cart" = localStorage st !! "cart" ->
  mount api storage =
  Done (auth_startup api
          (setCartCount (cartCount st) (setCart (cart st) (initial_state storage)))).
Proof.
  intros Hcount Hpersisted Hkey. unfold mount.
  pose (st2 := MkState (user st) (loading st) (cart st) (cartCount st) (currentView st) storage).
  assert (cart_persisted st2) as Hpersisted2.
  { unfold cart_persisted. cbn [localStorage cart st2]. by rewrite Hkey. }
  pose proof (hydrate_cart_persisted st2 Hcount Hpersisted2) as Hhydrate.
  change (localStorage st2) with storage in Hhydrate.
  by rewrite Hhydrate.
Qed.

(** X20: the login handshake.  When the exchange of the session id is
    answered with an object whose [session_token] is a non-empty string, the
    callback raises no alert and sends the browser to [/]; the page that
    then loads finds the token, fetches the profile with it and is signed in,
    on the home screen, with the cart it had before. *)
Theorem handleAuthCallback_signs_in api st data t profile :
  cart_invariant st ->
  get_property "session_token" data = Some (JString t) ->
  truthy_string t = true ->
  api t = Fulfilled profile ->
  let out := handleAuthCallback (Fulfilled data) st in
  callback_alert out = None /\ callback_href out = Some "/"%string /\
  exists st', mount api (localStorage (callback_state out)) = Done st' /\
    user st' = profile /\ loading st' = false /\ currentView st' = "home"%string /\
    cart st' = cart st /\ cartCount st' = cartCount st /\
    localStorage st' !! "session_token" = Some t.
Proof.
  intros [Hcount _ Hpersisted] Htoken Htruthy Hapi. unfold handleAuthCallback, session_token_of.
  destruct data; try discriminate Htoken. rewrite Htoken.
  cbn [String_of_property ToString]. rewrite string_of_list_ascii_of_string.
  cbn [callback_alert callback_href callback_state]. split; [done |]. split; [done |].
  eexists. split.
  { apply (mount_reload api st); [done | done |].
    cbn [localStorage localStorage_setItem]. by rewrite lookup_insert_ne. }
  unfold auth_startup, localStorage_getItem, fetchProfile.
  cbn [localStorage localStorage_setItem setCartCount setCart initial_state].
  rewrite lookup_insert_eq, Htruthy, Hapi. cbn.
  by rewrite lookup_insert_eq.
Qed.

Lemma handleAuthCallback_signs_in_witness :
  exists st', mount (fun _ => Fulfilled ada)
                (localStorage (callback_state
                   (handleAuthCallback (Fulfilled (JObject [("session_token"%string, JString "t1")]))
                                       two_items))) = Done st' /\
              user st' = ada /\ cart st' = cart two_items.
Proof.
  destruct (handleAuthCallback_signs_in (fun _ => Fulfilled ada) two_items
              (JObject [("session_token"%string, JString "t1")]) "t1" ada)
    as (_ & _ & st' & Hmount & Huser & _ & _ & Hcart & _).
  - split; [reflexivity | exact NoDup_two_items | by left].
  - reflexivity.
  - reflexivity.
  - reflexivity.
  - exists st'. by repeat split.
Defined.

(** X21: the callback does not check what it stores.  When the answer is an
    object without a [session_token], the token written to the store is the
    text [undefined], and the browser is still sent to [/]; the page that
    then loads asks for the profile with that text as the token, and is
    signed in or not as the server answers. *)
Theorem handleAuthCallback_missing_token api st data :
  cart_invariant st -> data <> JNull ->
  get_property "session_token" data = None ->
  let out := handleAuthCallback (Fulfilled data) st in
  callback_alert out = None /\ callback_href out = Some "/"%string /\
  localStorage (callback_state out) !! "session_token" = Some "undefined"%string /\
  exists st', mount api (localStorage (callback_state out)) = Done st' /\
    match api "undefined"%string with
    | Fulfilled profile =>
        user st' = profile /\ localStorage st' !! "session_token" = Some "undefined"%string
    | Rejected _ =>
        user st' = JNull /\ localStorage st' !! "session_token" = None
    end.
Proof.
  intros [Hcount _ Hpersisted] Hdata Htoken. unfold handleAuthCallback, session_token_of.
  assert (match data with JNull => None | _ => Some (get_property "session_token" data) end
          = Some (@None json)) as -> by (rewrite Htoken; by destruct data).
  cbn [String_of_property callback_alert callback_href callback_state
       localStorage localStorage_setItem].
  split; [done |]. split; [done |]. split; [by rewrite lookup_insert_eq |].
  eexists. split.
  { apply (mount_reload api st); [done | done |]. by rewrite lookup_insert_ne. }
  unfold auth_startup, localStorage_getItem, fetchProfile.
  cbn [localStorage localStorage_setItem setCartCount setCart initial_state].
  rewrite lookup_insert_eq. cbn [truthy_string].
  destruct (api "undefined"%string); cbn.
  - by rewrite lookup_insert_eq.
  - by rewrite lookup_delete_eq.
Qed.

Lemma handleAuthCallback_missing_token_witness :
  localStorage (callback_state (handleAuthCallback (Fulfilled (JObject [])) two_items))
    !! "session_token" = Some "undefined"%string.
Proof.
  destruct (handleAuthCallback_missing_token (fun _ => Rejected (StatusError 401)) two_items (JObject []))
    as (_ & _ & Hstored & _).
  - split; [reflexivity | exact NoDup_two_items | by left].
  - discriminate.
  - reflexivity.
  - exact Hstored.
Defined.

(** X22: the callback raises its alert exactly when the request failed or
    was answered with [null]; it then changes nothing and redirects nowhere.
    In every other case it writes a token, touches nothing but that key and
    redirects to [/]. *)
Theorem handleAuthCallback_failure post st :
  let out := handleAuthCallback post st in
  (callback_alert out = Some "Authentication failed. Please try again."%string <->
   (post = Fulfilled JNull \/ exists e, post = Rejected e)) /\
  (callback_alert out <> None -> callback_state out = st /\ callback_href out = None) /\
  (callback_alert out = None ->
   callback_href out = Some "/"%string /\
   (exists t, localStorage (callback_state out) !! "session_token" = Some t) /\
   (forall key, key <> "session_token"%string ->
                localStorage (callback_state out) !! key = localStorage st !! key) /\
   user (callback_state out) = user st /\ cart (callback_state out) = cart st /\
   cartCount (callback_state out) = cartCount st).
Proof.
  unfold handleAuthCallback, session_token_of.
  destruct post as [data | e].
  - destruct data; cbn [callback_alert callback_href callback_state];
      (split; [split; [try discriminate; by left | intros [H | [e H]]; by inversion H] |]);
      (split; [done |]); try done; intros _;
      (split; [done |]); (split; [eexists; apply lookup_insert_eq |]);
      (split; [by intros key Hkey; cbn; rewrite lookup_insert_ne |]); done.
  - cbn [callback_alert callback_href callback_state].
    split; [split; [intros _; right; by exists e | done] |]. by split.
Qed.

Lemma handleAuthCallback_failure_witness :
  callback_state (handleAuthCallback (Rejected NetworkError) two_items) = two_items /\
  callback_href (handleAuthCallback (Rejected NetworkError) two_items) = None.
Proof.
  destruct (handleAuthCallback_failure (Rejected NetworkError) two_items) as (_ & Hfailed & _).
  apply Hfailed. discriminate.
Defined.

(** X23: signing out and loading the page again.  The page comes up signed
    out without asking the server, whatever the server would answer, and the
    cart and its count are the ones from before signing out. *)
Theorem logout_then_reload api st :
  cart_invariant st ->
  exists st', mount api (localStorage (logout st)) = Done st' /\
    user st' = JNull /\ loading st' = false /\
    cart st' = cart st /\ cartCount st' = cartCount st /\
    localStorage st' = localStorage (logout st).
Proof.
  intros [Hcount _ Hpersisted]. eexists. split.
  { apply (mount_reload api st); [done | done |].
    unfold logout. cbn. by rewrite lookup_delete_ne. }
  unfold auth_startup, localStorage_getItem, logout.
  cbn [localStorage localStorage_removeItem setUser setCartCount setCart initial_state].
  by rewrite lookup_delete_eq.
Qed.

Lemma logout_then_reload_witness :
  exists st', mount (fun _ => Fulfilled ada) (localStorage (logout signed_in_two_items)) = Done st' /\
              user st' = JNull /\ cart st' = cart signed_in_two_items.
Proof.
  destruct (logout_then_reload (fun _ => Fulfilled ada) signed_in_two_items)
    as (st' & Hmount & Huser & _ & Hcart & _).
  - split; [reflexivity | exact NoDup_two_items | by left].
  - exists st'. by repeat split.
Defined.

(** ** Totals and reloads *)

(** X24: putting a product in the cart that was not in it raises the total
    by one addition: the new total is the old total plus the price of the
    product times the quantity added, the last term of the sum. *)
Theorem getTotal_addToCart_new p qty st :
  Product.id p ∉ product_ids (cart st) ->
  getTotal (addToCart p qty st) =
  number_add (getTotal st)
             (number_mul (number_of_decimal (Product.price p))
                         (number_of_Z (default 1 qty))).
Proof.
  intros Hnew. unfold getTotal.
  assert (cart (addToCart p qty st) = cart st ++ [LineItem p (default 1 qty)]) as ->.
  { destruct qty as [q |]; [exact (addToCart_new p q st Hnew) |].
    exact (addToCart_new p 1 st Hnew). }
  unfold total_of. by rewrite fold_left_app.
Qed.

Lemma getTotal_addToCart_new_witness :
  getTotal (addToCart mug (Some 2) fresh) =
  number_add (getTotal fresh)
             (number_mul (number_of_decimal (Product.price mug)) (number_of_Z 2)).
Proof.
  apply (getTotal_addToCart_new mug (Some 2) fresh). cbn. apply not_elem_of_nil.
Defined.

Lemma hydrate_cart_storage storage storage' st :
  storage' !! "cart" = storage !! "cart" ->
  hydrate_cart (initial_state storage) = Done st ->
  hydrate_cart (initial_state storage') =
  Done (setCartCount (cartCount st) (setCart (cart st) (initial_state storage'))).
Proof.
  intros Hkey. unfold hydrate_cart, localStorage_getItem.
  cbn [localStorage initial_state]. rewrite Hkey.
  destruct (storage !! "cart") as [savedCart |]; [| by intros [= <-]].
  destruct (truthy_string savedCart); [| by intros [= <-]].
  destruct (JSON_parse savedCart) as [parsed |]; [| done].
  destruct (cart_of_json parsed) as [parsedCart |]; [| done].
  by intros [= <-].
Qed.

(** X25: loading the page a second time changes nothing.  Whatever the
    store held, when the page has come up, a reload answered by the same
    server comes up in the very same state: same user, same cart, same
    count, same store. *)
Theorem mount_idempotent api storage st :
  mount api storage = Done st -> handle (EReload api) st = Done st.
Proof.
  unfold handle, mount.
  destruct (hydrate_cart (initial_state storage)) as [st1 | |] eqn:Hhydrate; [| done | done].
  intros [= <-].
  destruct (hydrate_cart_frame _ _ Hhydrate) as (Huser & Hloading & Hview & Hstorage).
  cbn [user loading currentView localStorage initial_state] in Huser, Hloading, Hview, Hstorage.
  assert (localStorage (auth_startup api st1) !! "cart" = storage !! "cart") as Hkey.
  { rewrite <- Hstorage. unfold auth_startup, fetchProfile, localStorage_getItem.
    destruct (localStorage st1 !! "session_token") as [token |]; [| done].
    destruct (truthy_string token); [| done].
    destruct (api token); [done |]. cbn. by rewrite lookup_delete_ne. }
  rewrite (hydrate_cart_storage storage _ st1 Hkey Hhydrate). f_equal.
  destruct st1 as [u l c n v s]. cbn in Huser, Hloading, Hview, Hstorage. subst.
  unfold auth_startup, fetchProfile, localStorage_getItem.
  cbn [localStorage].
  destruct (storage !! "session_token") as [token |] eqn:Htoken;
    [| cbn; by rewrite Htoken].
  destruct (truthy_string token) eqn:Htruthy; [| cbn; by rewrite Htoken, Htruthy].
  destruct (api token) as [data | error] eqn:Hapi; cbn.
  - by rewrite Htoken, Htruthy, Hapi.
  - by rewrite lookup_delete_eq.
Qed.

Lemma mount_idempotent_witness :
  exists st,
    mount (fun _ => Rejected NetworkError)
          (<["session_token" := "t0"]> (localStorage two_items)) = Done st /\
    handle (EReload (fun _ => Rejected NetworkError)) st = Done st.
Proof.
  eexists. split; [reflexivity |].
  apply (mount_idempotent (fun _ => Rejected NetworkError)
           (<["session_token" := "t0"]> (localStorage two_items))).
  reflexivity.
Defined.
